(** * seafile-client, src/utils/utils-win.cpp

    A shallow embedding of the Windows helpers of the Seafile client: the
    lazily initialised OS-version cache with its "at least version X"
    predicates, and the routine that reads the DPI of the first usable
    monitor and publishes a non-integer scale factor in [QT_SCALE_FACTOR].

    The file-scope variables of the translation unit ([osver],
    [osver_failure], [getDpiForMonitor], [setProcessDPIAware]) and the process
    environment are the fields of one [State] record that every function
    threads explicitly.  The Win32, Qt and GLib entry points the code calls are
    the fields of a [Platform] record; each call is also appended to a trace, so
    that statements such as "the OS is not queried again" or "no display
    enumeration takes place" can be read off the final state. *)

From stdpp Require Import gmap strings.
From Stdlib Require Import ZArith Lia Floats Ascii String.

Open Scope Z_scope.

(** ** Machine integers *)

(** [unsigned], [DWORD] and [UINT] are 32 bits wide on every Windows ABI;
    arithmetic on them wraps around. *)
Definition u32 (x : Z) : Z := x mod 2 ^ 32.

(** ** Win32 data *)

Definition HMONITOR := Z.
Definition HDC := Z.

(** The fields of [OSVERSIONINFOEX] that [GetVersionEx] fills in, and the size
    field the caller sets beforehand. *)
Record OSVERSIONINFOEX := mkOSVERSIONINFOEX {
  dwOSVersionInfoSize : Z;
  dwMajorVersion : Z;
  dwMinorVersion : Z;
  dwBuildNumber : Z;
  dwPlatformId : Z;
  wServicePackMajor : Z;
  wServicePackMinor : Z
}.

(** A static object of the translation unit: all zero. *)
Definition osver_zero : OSVERSIONINFOEX := mkOSVERSIONINFOEX 0 0 0 0 0 0 0.

(** What a successful [GetVersionEx] writes into the caller's structure. *)
Record VersionAnswer := mkVersionAnswer {
  ans_major : Z;
  ans_minor : Z;
  ans_build : Z;
  ans_platform : Z;
  ans_sp_major : Z;
  ans_sp_minor : Z
}.

(** [QDpi] is [QPair<qreal, qreal>].  Every value the code stores in one is
    converted from a [UINT] or an [int]; such a value is an integer of
    magnitude below 2^53, which a double holds exactly, so the pair is kept as
    two integers and the conversion to floating point is made where the source
    divides. *)
Definition QDpi := (Z * Z)%type.

(** The function type behind the [GetDpiForMonitor] typedef, which takes a
    monitor, an [int] and two [UINT] out-pointers and returns an [HRESULT]:
    [Some (x, y)] stands for a result that satisfies [SUCCEEDED] with the two
    values written through the pointers, [None] for a failure code. *)
Definition GetDpiForMonitor := HMONITOR -> Z -> option (Z * Z).

(** The function type behind the [SetProcessDPIAware] typedef: no argument,
    a [BOOL] result. *)
Definition SetProcessDPIAware := unit -> bool.

(** ** The platform *)

Record Platform := mkPlatform {
  (** [sizeof(OSVERSIONINFOEX)]: the size of a structure type, never zero. *)
  sizeof_OSVERSIONINFOEX : positive;
  (** The outcome of [GetVersionEx]: [None] when the call returns zero. *)
  os_version : option VersionAnswer;
  (** [QLibrary("SHCore").resolve("GetDpiForMonitor")], [None] for a null
      pointer. *)
  SHCore_GetDpiForMonitor : option GetDpiForMonitor;
  (** [QLibrary("user32").resolve("SetProcessDPIAware")]. *)
  user32_SetProcessDPIAware : option SetProcessDPIAware;
  (** The monitors [EnumDisplayMonitors] visits, in its order. *)
  monitors : list HMONITOR;
  (** [GetMonitorInfo]: the [szDevice] field on success, [None] for [FALSE]. *)
  GetMonitorInfo : HMONITOR -> option string;
  (** [CreateDC(device, NULL, NULL, NULL)]; the null handle is 0. *)
  CreateDC : string -> HDC;
  (** [GetDeviceCaps(hdc, index)], an [int]. *)
  GetDeviceCaps : HDC -> Z -> Z;
  (** How [QString::number] breaks a tie in the last digit it keeps: upwards
      (Qt's double-conversion back end) or to the even digit (Qt's older
      dtoa back end). *)
  qt_ties_up : bool
}.

Definition LOGPIXELSX : Z := 88.
Definition LOGPIXELSY : Z := 90.

(** ** The trace of external calls *)

Inductive Event :=
| EvGetVersionEx
| EvResolve (library symbol : string)
| EvSetProcessDPIAware
| EvEnumDisplayMonitors
| EvGetMonitorInfo (h : HMONITOR)
| EvGetDpiForMonitor (h : HMONITOR)
| EvCreateDC (device : string)
| EvGetDeviceCaps (hdc : HDC) (index : Z)
| EvDeleteDC (hdc : HDC)
| Ev_g_setenv (name value : string).

(** ** The program state *)

Record State := mkState {
  osver : OSVERSIONINFOEX;
  osver_failure : bool;
  getDpiForMonitor : option GetDpiForMonitor;
  setProcessDPIAware : option SetProcessDPIAware;
  environ : gmap string string;
  trace : list Event
}.

(** The state at process start: statics zeroed, function pointers null. *)
Definition initial_state (env : gmap string string) : State :=
  mkState osver_zero false None None env [].

Definition set_osver (o : OSVERSIONINFOEX) (st : State) : State :=
  mkState o (osver_failure st) (getDpiForMonitor st) (setProcessDPIAware st)
          (environ st) (trace st).

Definition set_osver_failure (b : bool) (st : State) : State :=
  mkState (osver st) b (getDpiForMonitor st) (setProcessDPIAware st)
          (environ st) (trace st).

Definition set_getDpiForMonitor (f : option GetDpiForMonitor) (st : State) : State :=
  mkState (osver st) (osver_failure st) f (setProcessDPIAware st)
          (environ st) (trace st).

Definition set_setProcessDPIAware (f : option SetProcessDPIAware) (st : State) : State :=
  mkState (osver st) (osver_failure st) (getDpiForMonitor st) f
          (environ st) (trace st).

Definition set_environ (e : gmap string string) (st : State) : State :=
  mkState (osver st) (osver_failure st) (getDpiForMonitor st) (setProcessDPIAware st)
          e (trace st).

Definition add_event (e : Event) (st : State) : State :=
  mkState (osver st) (osver_failure st) (getDpiForMonitor st) (setProcessDPIAware st)
          (environ st) (trace st ++ [e]).

(** ** A state monad with failure

    [None] is a crash: the only one the code can reach is a call through a
    null function pointer. *)
Definition M (A : Type) : Type := State -> option (A * State).

Definition ret {A} (a : A) : M A := fun st => Some (a, st).

Definition bind {A B} (m : M A) (k : A -> M B) : M B :=
  fun st => match m st with
            | Some (a, st') => k a st'
            | None => None
            end.

Definition crash {A} : M A := fun _ => None.

Definition get_state : M State := fun st => Some (st, st).

Definition modify (f : State -> State) : M unit := fun st => Some (tt, f st).

Definition emit (e : Event) : M unit := modify (add_event e).

Declare Scope monad_scope.
Delimit Scope monad_scope with monad.
Notation "'let*' x ':=' m 'in' k" := (bind m (fun x => k))
  (at level 10, x name, m at level 100, k at level 200) : monad_scope.
Notation "'let*' ' p ':=' m 'in' k" := (bind m (fun x => match x with p => k end))
  (at level 10, p pattern, m at level 100, k at level 200) : monad_scope.
Notation "m ;; k" := (bind m (fun _ => k))
  (at level 100, k at level 200, right associativity) : monad_scope.
Open Scope monad_scope.

(** * The program *)

Section Program.

Context (P : Platform).

(** ** The version oracle *)

(** [GetVersionEx((LPOSVERSIONINFO)&osver)]: on success the fields after the
    size are overwritten; on failure the structure is left as it was. *)
Definition GetVersionEx : M bool :=
  emit EvGetVersionEx ;;
  match os_version P with
  | Some a =>
      modify (fun st =>
        set_osver (mkOSVERSIONINFOEX (dwOSVersionInfoSize (osver st))
                     (ans_major a) (ans_minor a) (ans_build a) (ans_platform a)
                     (ans_sp_major a) (ans_sp_minor a)) st) ;;
      ret true
  | None => ret false
  end.

Definition isInitializedSystemVersion (st : State) : bool :=
  negb (dwOSVersionInfoSize (osver st) =? 0).

Definition initializeSystemVersion : M unit :=
  let* st := get_state in
  if isInitializedSystemVersion st then ret tt
  else
    modify (fun st =>
      set_osver (mkOSVERSIONINFOEX (Z.pos (sizeof_OSVERSIONINFOEX P))
                   (dwMajorVersion (osver st)) (dwMinorVersion (osver st))
                   (dwBuildNumber (osver st)) (dwPlatformId (osver st))
                   (wServicePackMajor (osver st)) (wServicePackMinor (osver st))) st) ;;
    let* ok := GetVersionEx in
    if negb ok then modify (set_osver_failure true) else ret tt.

(** [#define OSVER_TO_NUM(major, minor, patch)
      ((major << 20) + (minor << 10) + (patch))] on 32-bit unsigned operands. *)
Definition OSVER_TO_NUM (major minor patch : Z) : Z :=
  u32 (u32 (u32 (Z.shiftl major 20) + u32 (Z.shiftl minor 10)) + patch).

Definition OSVER_SYS (ver : OSVERSIONINFOEX) : Z :=
  OSVER_TO_NUM (dwMajorVersion ver) (dwMinorVersion ver) (wServicePackMajor ver).

Definition _isAtLeastSystemVersion (major minor patch : Z) : M bool :=
  initializeSystemVersion ;;
  let* st := get_state in
  if osver_failure st then ret false
  else if OSVER_SYS (osver st) <? OSVER_TO_NUM major minor patch then ret false
  else ret true.

(** The template [isAtLeastSystemVersion<major, minor, patch>()] of the
    anonymous namespace. *)
Definition isAtLeastSystemVersion_static (major minor patch : Z) : M bool :=
  _isAtLeastSystemVersion major minor patch.

(** [getSystemVersion(&major, &minor, &patch)].  The argument is what the three
    pointees hold on entry, the result what they hold on return. *)
Definition getSystemVersion (out : Z * Z * Z) : M (Z * Z * Z) :=
  initializeSystemVersion ;;
  let* st := get_state in
  (* default to XP *)
  let out := if osver_failure st then (5, 1, 0) else out in
  let out := (dwMajorVersion (osver st), snd (fst out), snd out) in
  let out := (fst (fst out), dwMinorVersion (osver st), snd out) in
  let out := (fst (fst out), snd (fst out), wServicePackMajor (osver st)) in
  ret out.

Definition isAtLeastSystemVersion (major minor patch : Z) : M bool :=
  _isAtLeastSystemVersion major minor patch.

Definition isWindowsVistaOrHigher : M bool := isAtLeastSystemVersion_static 6 0 0.
Definition isWindows7OrHigher : M bool := isAtLeastSystemVersion_static 6 1 0.
Definition isWindows8OrHigher : M bool := isAtLeastSystemVersion_static 6 2 0.
Definition isWindows8Point1OrHigher : M bool := isAtLeastSystemVersion_static 6 3 0.

(** ** Qt and GLib helpers *)

(** [qgetenv(name)]: the value of the variable, empty when it is not set. *)
Definition qgetenv (name : string) : M string :=
  let* st := get_state in
  ret (default "" (environ st !! name)).

(** [QByteArray::isEmpty]. *)
Definition isEmpty (s : string) : bool := String.eqb s "".

(** [g_setenv(name, value, overwrite)]. *)
Definition g_setenv (name value : string) (overwrite : bool) : M bool :=
  emit (Ev_g_setenv name value) ;;
  let* st := get_state in
  match environ st !! name with
  | Some _ => if overwrite then modify (set_environ (<[name := value]> (environ st))) else ret tt
  | None => modify (set_environ (<[name := value]> (environ st)))
  end ;;
  ret true.

(** [(double)n] for an integer [n]; exact while [n] is below 2^53 in
    magnitude, as every [UINT] and [int] is. *)
Definition double_of_Z (n : Z) : float :=
  if n <? 0 then PrimFloat.opp (PrimFloat.of_uint63 (Uint63.of_Z (- n)))
  else PrimFloat.of_uint63 (Uint63.of_Z n).

(** *** [QString::number(double)]

    Qt documents the call with its default arguments as format ['g'] with
    precision 6 in the C locale: the value rounded to at most six significant
    digits, trailing zeros dropped, in exponent form when the decimal exponent
    is below -4 or at least 6, and in plain decimal form otherwise. *)

Definition digit_char (d : Z) : ascii := Ascii.ascii_of_nat (48 + Z.to_nat d).

(** The [k] low decimal digits of [n], most significant first. *)
Fixpoint digits_of (k : nat) (n : Z) (acc : string) : string :=
  match k with
  | O => acc
  | S k' => digits_of k' (n / 10) (String (digit_char (n mod 10)) acc)
  end.

(** The number of decimal digits of a positive integer. *)
Fixpoint count_digits (fuel : nat) (n : Z) : Z :=
  match fuel with
  | O => 0
  | S f => if n <? 10 then 1 else 1 + count_digits f (n / 10)
  end.

(** The least [k >= 1], found among [fuel] candidates from [k], with
    [den <= num * 10^k]. *)
Fixpoint leading_zeros (fuel : nat) (k : Z) (num den : Z) : Z :=
  match fuel with
  | O => k
  | S f => if den <=? num * 10 ^ k then k else leading_zeros f (k + 1) num den
  end.

(** [floor (log10 (num / den))] for positive [num] and [den]. *)
Definition decimal_exponent (num den : Z) : Z :=
  if den <=? num then count_digits (S (Z.to_nat (Z.log2 (num / den)))) (num / den) - 1
  else - leading_zeros 400 1 num den.

Fixpoint strip_zeros_rev (s : list ascii) : list ascii :=
  match s with
  | c :: rest => if Ascii.eqb c "0" then strip_zeros_rev rest else s
  | [] => []
  end.

(** Drop the trailing zeros of a digit string, keeping at least one digit. *)
Definition chop_trailing_zeros (s : string) : string :=
  match strip_zeros_rev (rev (list_ascii_of_string s)) with
  | [] => "0"
  | l => string_of_list_ascii (rev l)
  end.

Fixpoint zeros (n : nat) : string :=
  match n with
  | O => ""
  | S n' => String "0" (zeros n')
  end.

(** The significant digits of [num / den] at precision 6 and the position of
    the decimal point relative to their start. *)
Definition doubleToAscii (num den : Z) : string * Z :=
  let X := decimal_exponent num den in
  let a := if X <=? 5 then num * 10 ^ (5 - X) else num in
  let b := if X <=? 5 then den else den * 10 ^ (X - 5) in
  let q := a / b in
  let r := a mod b in
  let up := if 2 * r =? b then qt_ties_up P || Z.odd q else b <? 2 * r in
  let N := if up then q + 1 else q in
  let '(N, X) := if N =? 10 ^ 6 then (10 ^ 5, X + 1) else (N, X) in
  (chop_trailing_zeros (digits_of 6 N ""), X + 1).

Definition decimalForm (digits : string) (decpt : Z) : string :=
  let digits := if decpt <? 0 then zeros (Z.to_nat (- decpt)) +:+ digits else digits in
  let decpt := if decpt <? 0 then 0 else decpt in
  let len := Z.of_nat (String.length digits) in
  let digits := if len <? decpt then digits +:+ zeros (Z.to_nat (decpt - len)) else digits in
  let len := Z.of_nat (String.length digits) in
  let digits :=
    if decpt <? len
    then substring 0 (Z.to_nat decpt) digits +:+ "." +:+
         substring (Z.to_nat decpt) (Z.to_nat (len - decpt)) digits
    else digits in
  if decpt =? 0 then "0" +:+ digits else digits.

Definition exponentForm (digits : string) (decpt : Z) : string :=
  let exp := decpt - 1 in
  let digits :=
    if 1 <? Z.of_nat (String.length digits)
    then substring 0 1 digits +:+ "." +:+ substring 1 (String.length digits - 1) digits
    else digits in
  let mag := Z.abs exp in
  let width := Z.to_nat (Z.max 2 (count_digits 5 mag)) in
  digits +:+ "e" +:+ (if exp <? 0 then "-" else "+") +:+ digits_of width mag "".

Definition QString_number (d : float) : string :=
  match Prim2SF d with
  | S754_nan => "nan"
  | S754_infinity s => if s then "-inf" else "inf"
  | S754_zero _ => "0"
  | S754_finite s m e =>
      let num := if 0 <=? e then Z.pos m * 2 ^ e else Z.pos m in
      let den := if 0 <=? e then 1 else 2 ^ (- e) in
      let '(digits, decpt) := doubleToAscii num den in
      let body :=
        if negb (decpt =? Z.of_nat (String.length digits)) && ((decpt <=? -4) || (6 <? decpt))
        then exponentForm digits decpt
        else decimalForm digits decpt in
      if s then "-" +:+ body else body
  end.

(** [QLibrary(library).resolve(symbol)] for the two symbols the code asks for. *)
Definition resolve_GetDpiForMonitor : M (option GetDpiForMonitor) :=
  emit (EvResolve "SHCore" "GetDpiForMonitor") ;;
  ret (SHCore_GetDpiForMonitor P).

Definition resolve_SetProcessDPIAware : M (option SetProcessDPIAware) :=
  emit (EvResolve "user32" "SetProcessDPIAware") ;;
  ret (user32_SetProcessDPIAware P).

(** ** The monitor DPI resolver *)

Definition monitorDPI (hMonitor : HMONITOR) : M QDpi :=
  let* st := get_state in
  match getDpiForMonitor st with
  | None => crash
  | Some f =>
      emit (EvGetDpiForMonitor hMonitor) ;;
      match f hMonitor 0 with
      | Some (dpiX, dpiY) => ret (dpiX, dpiY)
      | None => ret (0, 0)
      end
  end.

Definition deviceDPI (hdc : HDC) : M QDpi :=
  emit (EvGetDeviceCaps hdc LOGPIXELSX) ;;
  emit (EvGetDeviceCaps hdc LOGPIXELSY) ;;
  ret (GetDeviceCaps P hdc LOGPIXELSX, GetDeviceCaps P hdc LOGPIXELSY).

(** [monitorData(hMonitor, dpi_out)]: the second argument is what [*dpi_out]
    holds on entry, the second component of the result what it holds on
    return. *)
Definition monitorData (hMonitor : HMONITOR) (dpi_out : QDpi) : M (bool * QDpi) :=
  emit (EvGetMonitorInfo hMonitor) ;;
  match GetMonitorInfo P hMonitor with
  | None => ret (false, dpi_out)
  | Some szDevice =>
      if String.eqb szDevice "WinDisc" then ret (false, dpi_out)
      else
        let* dpi := monitorDPI hMonitor in
        if negb (fst dpi =? 0) then ret (true, dpi)
        else
          emit (EvCreateDC szDevice) ;;
          let hdc := CreateDC P szDevice in
          if negb (hdc =? 0) then
            let* d := deviceDPI hdc in
            emit (EvDeleteDC hdc) ;;
            ret (true, d)
          else ret (false, dpi_out)
  end.

(** The enumeration callback; [data] is the [QDpi] behind the [LPARAM].  Its
    result is taken as [EnumDisplayMonitors] is meant to read it: [false]
    ends the enumeration. *)
Definition monitorEnumCallback (hMonitor : HMONITOR) (data : QDpi) : M (bool * QDpi) :=
  let* '(found, data) := monitorData hMonitor data in
  if found then ret (false, data) else ret (true, data).

(** [EnumDisplayMonitors(0, 0, callback, data)]: the callback is invoked for
    one monitor after the other until it returns [FALSE]. *)
Fixpoint visit_monitors (callback : HMONITOR -> QDpi -> M (bool * QDpi))
    (hs : list HMONITOR) (data : QDpi) : M QDpi :=
  match hs with
  | [] => ret data
  | h :: rest =>
      let* '(continue, data) := callback h data in
      if continue then visit_monitors callback rest data else ret data
  end.

Definition EnumDisplayMonitors (callback : HMONITOR -> QDpi -> M (bool * QDpi))
    (data : QDpi) : M QDpi :=
  emit EvEnumDisplayMonitors ;;
  visit_monitors callback (monitors P) data.

Definition readDPI (dpi : QDpi) : M (bool * QDpi) :=
  let* dpi := EnumDisplayMonitors monitorEnumCallback dpi in
  ret (negb (fst dpi =? 0), dpi).

(** ** The scaling orchestrator *)

(** A default-constructed [QPair] value-initialises both members. *)
Definition QDpi_default : QDpi := (0, 0).

Definition fixQtHDPINonIntegerScaling : M bool :=
  (* Only do this on win8/win10 *)
  let* win8 := isWindows8OrHigher in
  if negb win8 then ret false else
  (* Don't overwrite the user specified scaling factors *)
  let* v := qgetenv "QT_SCALE_FACTOR" in
  if negb (isEmpty v) then ret true else
  let* v := qgetenv "QT_AUTO_SCREEN_SCALE_FACTOR" in
  if negb (isEmpty v) then ret true else
  let* f := resolve_GetDpiForMonitor in
  modify (set_getDpiForMonitor f) ;;
  match f with
  | None => ret false
  | Some _ =>
      let* g := resolve_SetProcessDPIAware in
      modify (set_setProcessDPIAware g) ;;
      match g with
      | None => ret false
      | Some setProcessDPIAware =>
          (* Turn off system scaling; the result is ignored *)
          emit EvSetProcessDPIAware ;;
          let _ := setProcessDPIAware tt in
          let* '(ok, dpi) := readDPI QDpi_default in
          if negb ok then ret false else
          if fst dpi <=? 96 then ret false else
          let scaling_factor := PrimFloat.div (double_of_Z (fst dpi)) 96%float in
          let factor := QString_number scaling_factor in
          g_setenv "QT_SCALE_FACTOR" factor true ;;
          ret true
      end
  end.

(** ** Call histories

    The functions the header exports, and a process as a sequence of calls to
    them. *)
Inductive Call :=
| call_getSystemVersion (out : Z * Z * Z)
| call_isAtLeastSystemVersion (major minor patch : Z)
| call_isWindowsVistaOrHigher
| call_isWindows7OrHigher
| call_isWindows8OrHigher
| call_isWindows8Point1OrHigher
| call_fixQtHDPINonIntegerScaling.

Inductive Result :=
| res_version (v : Z * Z * Z)
| res_bool (b : bool).

Definition exec (c : Call) : M Result :=
  match c with
  | call_getSystemVersion out => let* v := getSystemVersion out in ret (res_version v)
  | call_isAtLeastSystemVersion major minor patch =>
      let* b := isAtLeastSystemVersion major minor patch in ret (res_bool b)
  | call_isWindowsVistaOrHigher => let* b := isWindowsVistaOrHigher in ret (res_bool b)
  | call_isWindows7OrHigher => let* b := isWindows7OrHigher in ret (res_bool b)
  | call_isWindows8OrHigher => let* b := isWindows8OrHigher in ret (res_bool b)
  | call_isWindows8Point1OrHigher => let* b := isWindows8Point1OrHigher in ret (res_bool b)
  | call_fixQtHDPINonIntegerScaling => let* b := fixQtHDPINonIntegerScaling in ret (res_bool b)
  end.

Fixpoint run (cs : list Call) : M (list Result) :=
  match cs with
  | [] => ret []
  | c :: rest =>
      let* r := exec c in
      let* rs := run rest in
      ret (r :: rs)
  end.

End Program.

(** * Vocabulary of the statements *)

(** ** Reading the trace *)

Definition is_version_query (e : Event) : bool :=
  match e with EvGetVersionEx => true | _ => false end.

Definition is_display_event (e : Event) : bool :=
  match e with
  | EvEnumDisplayMonitors | EvGetMonitorInfo _ | EvGetDpiForMonitor _
  | EvCreateDC _ | EvGetDeviceCaps _ _ | EvDeleteDC _ => true
  | _ => false
  end.

Definition is_env_write (e : Event) : bool :=
  match e with Ev_g_setenv _ _ => true | _ => false end.

Definition is_resolve (e : Event) : bool :=
  match e with EvResolve _ _ => true | _ => false end.

(** The events of a trace that satisfy [p], in order. *)
Fixpoint select (p : Event -> bool) (t : list Event) : list Event :=
  match t with
  | [] => []
  | e :: t' => if p e then e :: select p t' else select p t'
  end.

(** The monitors whose information a trace asks for, in order. *)
Fixpoint consulted (t : list Event) : list HMONITOR :=
  match t with
  | [] => []
  | EvGetMonitorInfo h :: t' => h :: consulted t'
  | _ :: t' => consulted t'
  end.

(** A state that differs from [st] only by more events at the end of its
    trace. *)
Definition add_events (evs : list Event) (st : State) : State :=
  mkState (osver st) (osver_failure st) (getDpiForMonitor st) (setProcessDPIAware st)
          (environ st) (trace st ++ evs).

(** From [st] to [st'] the cached version structure, the failure flag and the
    number of OS version queries made so far are the same. *)
Definition same_version_cache (st st' : State) : Prop :=
  osver st' = osver st /\
  osver_failure st' = osver_failure st /\
  select is_version_query (trace st') = select is_version_query (trace st).

(** The environment variable [name] holds a non-empty value. *)
Definition user_override (name : string) (st : State) : Prop :=
  exists v, environ st !! name = Some v /\ v <> "".

(** The characters a number written in the C locale is made of, the words
    "inf" and "nan" included. *)
Definition c_locale_char (c : ascii) : bool :=
  existsb (Ascii.eqb c) (list_ascii_of_string "0123456789.e+-infa").

Definition c_locale_text (s : string) : Prop :=
  Forall (fun c => c_locale_char c = true) (list_ascii_of_string s).

(** Lexicographic [>=] on version triples. *)
Definition tuple_ge (a b : Z * Z * Z) : bool :=
  let '(a1, a2, a3) := a in
  let '(b1, b2, b3) := b in
  (b1 <? a1) || ((a1 =? b1) && ((b2 <? a2) || ((a2 =? b2) && (b3 <=? a3)))).

Section Vocabulary.

Context (P : Platform).

(** The state right after the one query [initializeSystemVersion] makes. *)
Definition queried (st : State) : State :=
  match os_version P with
  | Some a =>
      mkState (mkOSVERSIONINFOEX (Z.pos (sizeof_OSVERSIONINFOEX P))
                 (ans_major a) (ans_minor a) (ans_build a) (ans_platform a)
                 (ans_sp_major a) (ans_sp_minor a))
              (osver_failure st) (getDpiForMonitor st) (setProcessDPIAware st)
              (environ st) (trace st ++ [EvGetVersionEx])
  | None =>
      mkState (mkOSVERSIONINFOEX (Z.pos (sizeof_OSVERSIONINFOEX P))
                 (dwMajorVersion (osver st)) (dwMinorVersion (osver st))
                 (dwBuildNumber (osver st)) (dwPlatformId (osver st))
                 (wServicePackMajor (osver st)) (wServicePackMinor (osver st)))
              true (getDpiForMonitor st) (setProcessDPIAware st)
              (environ st) (trace st ++ [EvGetVersionEx])
  end.

(** The state [initializeSystemVersion] leaves. *)
Definition initialized (st : State) : State :=
  if isInitializedSystemVersion st then st else queried st.

(** A monitor that [monitorData] accepts when the per-monitor query is [f]: its
    information is readable, its device is not the sentinel, and either the
    per-monitor query gives a non-zero horizontal value or a device context
    opens. *)
Definition usable (f : GetDpiForMonitor) (h : HMONITOR) : bool :=
  match GetMonitorInfo P h with
  | None => false
  | Some szDevice =>
      negb (String.eqb szDevice "WinDisc") &&
      (match f h 0 with
       | Some (dpiX, _) => negb (dpiX =? 0)
       | None => false
       end || negb (CreateDC P szDevice =? 0))
  end.

(** The state in which [fixQtHDPINonIntegerScaling] starts the display
    enumeration, [st] being the state after its two environment checks. *)
Definition probed (f : GetDpiForMonitor) (g : SetProcessDPIAware) (st : State) : State :=
  add_event EvSetProcessDPIAware
    (set_setProcessDPIAware (Some g)
       (add_event (EvResolve "user32" "SetProcessDPIAware")
          (set_getDpiForMonitor (Some f)
             (add_event (EvResolve "SHCore" "GetDpiForMonitor") st)))).

End Vocabulary.

(** * Sample platforms *)

(** A host whose version query fails and that has no display. *)
Definition failing_platform : Platform :=
  mkPlatform 156 None None None [] (fun _ => None) (fun _ => 0) (fun _ _ => 0) true.

(** Windows 8.1 without service pack. *)
Definition windows_8_1 : VersionAnswer := mkVersionAnswer 6 3 9600 2 0 0.

(** A [SetProcessDPIAware] that succeeds. *)
Definition always_aware : SetProcessDPIAware := fun _ => true.

(** The per-monitor query of [hidpi_platform]: 144 DPI for monitor 2. *)
Definition hidpi_query : GetDpiForMonitor :=
  fun h _ => if h =? 2 then Some (144, 144) else None.

(** Windows 8.1 on a 150% display: the first enumerated monitor is the
    disconnected pseudo-display, the second reports 144 DPI. *)
Definition hidpi_platform : Platform :=
  mkPlatform 156 (Some windows_8_1)
    (Some hidpi_query)
    (Some always_aware)
    [1; 2]
    (fun h => if h =? 1 then Some "WinDisc" else Some "DISPLAY1")
    (fun _ => 0)
    (fun _ _ => 0)
    true.

(** A laptop with the lid closed: the only enumerated monitor is the
    disconnected pseudo-display. *)
Definition lid_closed_platform : Platform :=
  mkPlatform 156 (Some windows_8_1)
    (Some (fun _ _ => Some (96, 96)))
    (Some (fun _ => true))
    [1]
    (fun _ => Some "WinDisc")
    (fun _ => 5)
    (fun _ _ => 96)
    true.

(** The per-monitor query of [stale_driver_platform]: it knows monitor 3 only. *)
Definition stale_driver_query : GetDpiForMonitor :=
  fun h _ => if h =? 3 then Some (144, 144) else None.

(** Three monitors: the pseudo-display, then a display whose per-monitor query
    fails and whose device context reports a logical DPI of 0, then a 144 DPI
    display. *)
Definition stale_driver_platform : Platform :=
  mkPlatform 156 (Some windows_8_1)
    (Some stale_driver_query)
    (Some (fun _ => true))
    [1; 2; 3]
    (fun h => if h =? 1 then Some "WinDisc"
              else if h =? 2 then Some "DISPLAY1" else Some "DISPLAY2")
    (fun _ => 77)
    (fun _ _ => 0)
    true.

(** Windows 8.1 without the SHCore library. *)
Definition no_shcore_platform : Platform :=
  mkPlatform 156 (Some windows_8_1) None (Some always_aware) [2]
    (fun _ => Some "DISPLAY1") (fun _ => 5) (fun _ _ => 144) true.

(** * Vocabulary of the further properties *)

(** The steps of the probing protocol of [fixQtHDPINonIntegerScaling]: symbol
    resolution, the DPI-awareness call, the enumeration and the environment
    write. *)
Definition is_probe_step (e : Event) : bool :=
  match e with
  | EvResolve _ _ | EvSetProcessDPIAware | EvEnumDisplayMonitors | Ev_g_setenv _ _ => true
  | _ => false
  end.

(** The device contexts a trace hands to [DeleteDC], in order. *)
Fixpoint released (t : list Event) : list HDC :=
  match t with
  | [] => []
  | EvDeleteDC hdc :: t' => hdc :: released t'
  | _ :: t' => released t'
  end.

(** The device contexts a trace reads with [GetDeviceCaps], in order. *)
Fixpoint read_contexts (t : list Event) : list HDC :=
  match t with
  | [] => []
  | EvGetDeviceCaps hdc _ :: t' => hdc :: read_contexts t'
  | _ :: t' => read_contexts t'
  end.

Section ProbeVocabulary.

Context (P : Platform).

(** The device contexts the [CreateDC] calls of a trace obtained (a null
    result is no device context), in order. *)
Fixpoint opened (t : list Event) : list HDC :=
  match t with
  | [] => []
  | EvCreateDC device :: t' =>
      if CreateDC P device =? 0 then opened t' else CreateDC P device :: opened t'
  | _ :: t' => opened t'
  end.

(** What [monitorData] returns and which calls it makes, as a function of the
    platform and of the per-monitor query [f] the global pointer holds. *)
Definition scan_monitor (f : GetDpiForMonitor) (h : HMONITOR) (dpi_out : QDpi)
  : bool * QDpi * list Event :=
  match GetMonitorInfo P h with
  | None => (false, dpi_out, [EvGetMonitorInfo h])
  | Some szDevice =>
      if String.eqb szDevice "WinDisc" then (false, dpi_out, [EvGetMonitorInfo h])
      else
        let dpi := match f h 0 with Some (dpiX, dpiY) => (dpiX, dpiY) | None => (0, 0) end in
        if negb (fst dpi =? 0)
        then (true, dpi, [EvGetMonitorInfo h; EvGetDpiForMonitor h])
        else
          let hdc := CreateDC P szDevice in
          if negb (hdc =? 0)
          then (true, (GetDeviceCaps P hdc LOGPIXELSX, GetDeviceCaps P hdc LOGPIXELSY),
                [EvGetMonitorInfo h; EvGetDpiForMonitor h; EvCreateDC szDevice;
                 EvGetDeviceCaps hdc LOGPIXELSX; EvGetDeviceCaps hdc LOGPIXELSY;
                 EvDeleteDC hdc])
          else (false, dpi_out,
                [EvGetMonitorInfo h; EvGetDpiForMonitor h; EvCreateDC szDevice])
  end.

(** The same for the enumeration of a list of monitors with
    [monitorEnumCallback]. *)
Fixpoint scan_monitors (f : GetDpiForMonitor) (hs : list HMONITOR) (data : QDpi)
  : QDpi * list Event :=
  match hs with
  | [] => (data, [])
  | h :: rest =>
      let '(found, data', evs) := scan_monitor f h data in
      if found then (data', evs)
      else let '(data'', evs') := scan_monitors f rest data' in (data'', evs ++ evs')
  end.

(** The result of [fixQtHDPINonIntegerScaling] and the environment it leaves,
    as a function of the version cache it works with and of the environment
    it starts in. *)
Definition outcome (cache : OSVERSIONINFOEX) (failure : bool) (env : gmap string string)
  : bool * gmap string string :=
  if negb (negb failure && negb (OSVER_SYS cache <? OSVER_TO_NUM 6 2 0)) then (false, env)
  else if negb (isEmpty (default "" (env !! "QT_SCALE_FACTOR"))) then (true, env)
  else if negb (isEmpty (default "" (env !! "QT_AUTO_SCREEN_SCALE_FACTOR"))) then (true, env)
  else
    match SHCore_GetDpiForMonitor P, user32_SetProcessDPIAware P with
    | Some f, Some _ =>
        let dpi := fst (scan_monitors f (monitors P) QDpi_default) in
        if fst dpi =? 0 then (false, env)
        else if fst dpi <=? 96 then (false, env)
        else (true,
              <["QT_SCALE_FACTOR" :=
                  QString_number P (PrimFloat.div (double_of_Z (fst dpi)) 96%float)]> env)
    | _, _ => (false, env)
    end.

End ProbeVocabulary.

(** The state [hidpi_platform] is in after one call of
    [fixQtHDPINonIntegerScaling] from process start with an empty
    environment. *)
Definition hidpi_published_state : State :=
  set_environ (<["QT_SCALE_FACTOR" := "1.5"]> ∅)
    (add_events [EvResolve "SHCore" "GetDpiForMonitor";
                 EvResolve "user32" "SetProcessDPIAware"; EvSetProcessDPIAware;
                 EvEnumDisplayMonitors; EvGetMonitorInfo 1; EvGetMonitorInfo 2;
                 EvGetDpiForMonitor 2; Ev_g_setenv "QT_SCALE_FACTOR" "1.5"]
       (set_setProcessDPIAware (Some always_aware)
          (set_getDpiForMonitor (Some hidpi_query)
             (queried hidpi_platform (initial_state ∅))))).

(** Windows 7 with service pack 1, where SHCore does not exist. *)
Definition windows_7_platform : Platform :=
  mkPlatform 156 (Some (mkVersionAnswer 6 1 7601 2 1 0)) None (Some always_aware) [2]
    (fun _ => Some "DISPLAY1") (fun _ => 5) (fun _ _ => 120) true.

(** A monitor whose per-monitor query fails and whose device context reports
    120 DPI. *)
Definition legacy_query : GetDpiForMonitor := fun _ _ => None.

Definition legacy_driver_platform : Platform :=
  mkPlatform 156 (Some windows_8_1)
    (Some legacy_query)
    (Some always_aware)
    [4]
    (fun _ => Some "DISPLAY1")
    (fun _ => 9)
    (fun _ _ => 120)
    true.


(** * Properties *)

(** ** Sample runs *)

Example OSVER_TO_NUM_windows_8 : OSVER_TO_NUM 6 2 0 = 6293504.
Proof. reflexivity. Qed.

(** A major number of 2^12 is shifted out of the 32 bits. *)
Example OSVER_TO_NUM_wraps : OSVER_TO_NUM 4096 0 0 = 0.
Proof. reflexivity. Qed.

Example QString_number_125_percent :
  QString_number hidpi_platform (PrimFloat.div (double_of_Z 120) 96%float) = "1.25".
Proof. reflexivity. Qed.

Example QString_number_six_digits :
  QString_number hidpi_platform (PrimFloat.div (double_of_Z 97) 96%float) = "1.01042".
Proof. reflexivity. Qed.

Example QString_number_exponent_form :
  QString_number hidpi_platform (PrimFloat.div (double_of_Z 4294967295) 96%float) =
  "4.47392e+07".
Proof. reflexivity. Qed.

(** 963 / 96 = 10.03125 lies half-way between two six-digit numbers. *)
Example QString_number_tie_upwards :
  QString_number hidpi_platform (PrimFloat.div (double_of_Z 963) 96%float) = "10.0313".
Proof. reflexivity. Qed.

Example QString_number_tie_to_even :
  QString_number
    (mkPlatform 156 None None None [] (fun _ => None) (fun _ => 0) (fun _ _ => 0) false)
    (PrimFloat.div (double_of_Z 963) 96%float) = "10.0312".
Proof. reflexivity. Qed.

Example hidpi_session :
  fst <$> run hidpi_platform
            [call_fixQtHDPINonIntegerScaling; call_getSystemVersion (0, 0, 0);
             call_isWindows8Point1OrHigher]
            (initial_state ∅) =
  Some [res_bool true; res_version (6, 3, 0); res_bool true].
Proof. reflexivity. Qed.

Example hidpi_session_trace :
  trace <$> (snd <$> run hidpi_platform [call_fixQtHDPINonIntegerScaling] (initial_state ∅)) =
  Some [EvGetVersionEx; EvResolve "SHCore" "GetDpiForMonitor";
        EvResolve "user32" "SetProcessDPIAware"; EvSetProcessDPIAware;
        EvEnumDisplayMonitors; EvGetMonitorInfo 1; EvGetMonitorInfo 2;
        EvGetDpiForMonitor 2; Ev_g_setenv "QT_SCALE_FACTOR" "1.5"].
Proof. reflexivity. Qed.

Example failing_session :
  fst <$> run failing_platform
            [call_getSystemVersion (7, 7, 7); call_isWindowsVistaOrHigher;
             call_fixQtHDPINonIntegerScaling]
            (initial_state ∅) =
  Some [res_version (0, 0, 0); res_bool false; res_bool false].
Proof. reflexivity. Qed.

Example stale_driver_session :
  fst <$> run stale_driver_platform [call_fixQtHDPINonIntegerScaling] (initial_state ∅) =
  Some [res_bool false].
Proof. reflexivity. Qed.

(** ** Reading the trace *)

Lemma select_app p t1 t2 : select p (t1 ++ t2) = select p t1 ++ select p t2.
Proof.
  induction t1 as [|e t1 IH]; simpl; [reflexivity|].
  destruct (p e); simpl; congruence.
Qed.

Lemma select_snoc_skip p t e : p e = false -> select p (t ++ [e]) = select p t.
Proof.
  intros H. rewrite select_app. simpl. rewrite H. apply app_nil_r.
Qed.

(** ** The version cache *)

Section VersionCache.

Context (P : Platform).

Lemma initializeSystemVersion_eq st :
  initializeSystemVersion P st = Some (tt, initialized P st).
Proof.
  unfold initializeSystemVersion, initialized, queried, bind, get_state.
  destruct (isInitializedSystemVersion st); [reflexivity|].
  unfold GetVersionEx, bind, emit, modify.
  destruct (os_version P); reflexivity.
Qed.

Lemma queried_isInitialized st : isInitializedSystemVersion (queried P st) = true.
Proof. unfold queried. destruct (os_version P); reflexivity. Qed.

Lemma initialized_isInitialized st : isInitializedSystemVersion (initialized P st) = true.
Proof.
  unfold initialized.
  destruct (isInitializedSystemVersion st) eqn:E; [exact E | apply queried_isInitialized].
Qed.

Lemma initialized_idem st : isInitializedSystemVersion st = true -> initialized P st = st.
Proof. intros H. unfold initialized. rewrite H. reflexivity. Qed.

Lemma initialized_environ st : environ (initialized P st) = environ st.
Proof.
  unfold initialized, queried.
  destruct (isInitializedSystemVersion st), (os_version P); reflexivity.
Qed.

Lemma initialized_getDpiForMonitor st :
  getDpiForMonitor (initialized P st) = getDpiForMonitor st.
Proof.
  unfold initialized, queried.
  destruct (isInitializedSystemVersion st), (os_version P); reflexivity.
Qed.

Lemma initialized_select p st :
  p EvGetVersionEx = false -> select p (trace (initialized P st)) = select p (trace st).
Proof.
  intros H. unfold initialized, queried.
  destruct (isInitializedSystemVersion st), (os_version P); simpl;
    try reflexivity; apply select_snoc_skip, H.
Qed.

Lemma initialized_failure_kept st :
  osver_failure st = true -> osver_failure (initialized P st) = true.
Proof.
  intros H. unfold initialized, queried.
  destruct (isInitializedSystemVersion st), (os_version P); simpl; auto.
Qed.

Lemma _isAtLeastSystemVersion_eq major minor patch st :
  _isAtLeastSystemVersion P major minor patch st =
  Some (negb (osver_failure (initialized P st)) &&
        negb (OSVER_SYS (osver (initialized P st)) <? OSVER_TO_NUM major minor patch),
        initialized P st).
Proof.
  unfold _isAtLeastSystemVersion, bind. rewrite initializeSystemVersion_eq.
  unfold get_state.
  destruct (osver_failure (initialized P st)); [reflexivity|].
  destruct (OSVER_SYS (osver (initialized P st)) <? OSVER_TO_NUM major minor patch);
    reflexivity.
Qed.

Lemma getSystemVersion_eq out st :
  getSystemVersion P out st =
  Some ((dwMajorVersion (osver (initialized P st)),
         dwMinorVersion (osver (initialized P st)),
         wServicePackMajor (osver (initialized P st))), initialized P st).
Proof.
  unfold getSystemVersion, bind. rewrite initializeSystemVersion_eq. reflexivity.
Qed.

End VersionCache.

(** ** The display probe *)

Lemma add_events_nil st : add_events [] st = st.
Proof. destruct st. unfold add_events. simpl. rewrite app_nil_r. reflexivity. Qed.

Lemma add_events_app evs1 evs2 st :
  add_events evs2 (add_events evs1 st) = add_events (evs1 ++ evs2) st.
Proof. unfold add_events. simpl. rewrite app_assoc. reflexivity. Qed.

Lemma add_event_add_events e evs st :
  add_event e (add_events evs st) = add_events (evs ++ [e]) st.
Proof. unfold add_events, add_event. simpl. rewrite app_assoc. reflexivity. Qed.

Lemma Forall_display_app (evs1 evs2 : list Event) :
  Forall (fun e => is_display_event e = true) evs1 ->
  Forall (fun e => is_display_event e = true) evs2 ->
  Forall (fun e => is_display_event e = true) (evs1 ++ evs2).
Proof. intros H1 H2. apply Forall_app. split; assumption. Qed.

Lemma select_none p evs :
  Forall (fun e => is_display_event e = true) evs ->
  (forall e, is_display_event e = true -> p e = false) ->
  select p evs = [].
Proof.
  intros H Hp. induction H as [|e evs He _ IH]; simpl; [reflexivity|].
  rewrite (Hp e He). exact IH.
Qed.

Lemma consulted_app t1 t2 : consulted (t1 ++ t2) = consulted t1 ++ consulted t2.
Proof.
  induction t1 as [|e t1 IH]; simpl; [reflexivity|].
  destruct e; simpl; rewrite ?IH; reflexivity.
Qed.

Section DisplayProbe.

Context (P : Platform).

Lemma monitorDPI_eq f h st :
  getDpiForMonitor st = Some f ->
  monitorDPI h st =
  Some (match f h 0 with Some (dpiX, dpiY) => (dpiX, dpiY) | None => (0, 0) end,
        add_events [EvGetDpiForMonitor h] st).
Proof.
  intros Hf. unfold monitorDPI, bind, get_state. rewrite Hf.
  unfold emit, modify. destruct (f h 0) as [[x y]|]; reflexivity.
Qed.

Lemma deviceDPI_eq hdc st :
  deviceDPI P hdc st =
  Some ((GetDeviceCaps P hdc LOGPIXELSX, GetDeviceCaps P hdc LOGPIXELSY),
        add_events [EvGetDeviceCaps hdc LOGPIXELSX; EvGetDeviceCaps hdc LOGPIXELSY] st).
Proof.
  unfold deviceDPI, bind, emit, modify, add_events, add_event. simpl.
  rewrite <- app_assoc. reflexivity.
Qed.

(** [monitorData] always returns when the per-monitor query is resolved; it
    accepts exactly the usable monitors, only appends display events about the
    monitor it is given, and leaves the caller's value alone when it rejects. *)
Lemma monitorData_spec f h d st :
  getDpiForMonitor st = Some f ->
  exists d' evs,
    monitorData P h d st = Some ((usable P f h, d'), add_events evs st) /\
    Forall (fun e => is_display_event e = true) evs /\
    (usable P f h = false -> d' = d) /\
    consulted evs = [h].
Proof.
  intros Hf. unfold monitorData, usable, bind, emit, modify.
  destruct (GetMonitorInfo P h) as [name|].
  2:{ exists d, [EvGetMonitorInfo h]. repeat split. repeat constructor. }
  destruct (String.eqb name "WinDisc").
  { exists d, [EvGetMonitorInfo h]. repeat split. repeat constructor. }
  rewrite (monitorDPI_eq f) by exact Hf.
  assert (Hno : forall x : Z * Z,
    exists d' evs,
      Some (false, d, add_event (EvCreateDC name)
                        (add_events [EvGetDpiForMonitor h] (add_event (EvGetMonitorInfo h) st)))
      = Some (false, d', add_events evs st) /\
      Forall (fun e => is_display_event e = true) evs /\
      (false = false -> d' = d) /\ consulted evs = [h]).
  { intros _. exists d, [EvGetMonitorInfo h; EvGetDpiForMonitor h; EvCreateDC name].
    unfold add_events, add_event. simpl. rewrite <- !app_assoc. simpl.
    repeat split. repeat constructor. }
  destruct (f h 0) as [[x y]|]; simpl.
  - destruct (x =? 0) eqn:Ex; simpl.
    + destruct (CreateDC P name =? 0) eqn:Ehdc; simpl.
      * exact (Hno (0, 0)).
      * eexists _, [EvGetMonitorInfo h; EvGetDpiForMonitor h; EvCreateDC name;
                    EvGetDeviceCaps (CreateDC P name) LOGPIXELSX;
                    EvGetDeviceCaps (CreateDC P name) LOGPIXELSY;
                    EvDeleteDC (CreateDC P name)]. unfold add_events, add_event. simpl. rewrite <- !app_assoc. simpl.
        split; [reflexivity|]. split; [repeat constructor|]. split; [discriminate | reflexivity].
    + eexists _, [EvGetMonitorInfo h; EvGetDpiForMonitor h].
      unfold add_events, add_event. simpl. rewrite <- !app_assoc. simpl.
      split; [reflexivity|]. split; [repeat constructor|]. split; [discriminate | reflexivity].
  - destruct (CreateDC P name =? 0) eqn:Ehdc; simpl.
    + exact (Hno (0, 0)).
    + eexists _, [EvGetMonitorInfo h; EvGetDpiForMonitor h; EvCreateDC name;
                  EvGetDeviceCaps (CreateDC P name) LOGPIXELSX;
                  EvGetDeviceCaps (CreateDC P name) LOGPIXELSY;
                  EvDeleteDC (CreateDC P name)]. unfold add_events, add_event. simpl. rewrite <- !app_assoc. simpl.
      split; [reflexivity|]. split; [repeat constructor|]. split; [discriminate | reflexivity].
Qed.

Lemma monitorEnumCallback_spec f h d st :
  getDpiForMonitor st = Some f ->
  exists d' evs,
    monitorEnumCallback P h d st = Some ((negb (usable P f h), d'), add_events evs st) /\
    monitorData P h d st = Some ((usable P f h, d'), add_events evs st) /\
    Forall (fun e => is_display_event e = true) evs /\
    (usable P f h = false -> d' = d) /\
    consulted evs = [h].
Proof.
  intros Hf. destruct (monitorData_spec f h d st Hf) as (d' & evs & Hm & Hev & Hd & Hc).
  exists d', evs. unfold monitorEnumCallback, bind. rewrite Hm.
  destruct (usable P f h); repeat split; assumption.
Qed.

Lemma visit_monitors_spec f hs : forall d st,
  getDpiForMonitor st = Some f ->
  exists d' evs,
    visit_monitors (monitorEnumCallback P) hs d st = Some (d', add_events evs st) /\
    Forall (fun e => is_display_event e = true) evs.
Proof.
  induction hs as [|h rest IH]; intros d st Hf; simpl.
  - exists d, []. rewrite add_events_nil. split; [reflexivity | constructor].
  - destruct (monitorEnumCallback_spec f h d st Hf) as (d1 & evs1 & Hcb & _ & Hev1 & _).
    unfold bind. rewrite Hcb.
    destruct (usable P f h); simpl.
    + exists d1, evs1. split; [reflexivity | assumption].
    + destruct (IH d1 (add_events evs1 st) Hf) as (d2 & evs2 & Hv & Hev2).
      exists d2, (evs1 ++ evs2). rewrite Hv, add_events_app.
      split; [reflexivity | apply Forall_display_app; assumption].
Qed.

(** A run of monitors that [monitorData] rejects is walked through: each is
    asked for its information, none changes the value collected so far. *)
Lemma visit_monitors_rejected f pre : forall rest d st,
  getDpiForMonitor st = Some f ->
  Forall (fun h => usable P f h = false) pre ->
  exists evs,
    visit_monitors (monitorEnumCallback P) (pre ++ rest) d st =
    visit_monitors (monitorEnumCallback P) rest d (add_events evs st) /\
    consulted evs = pre.
Proof.
  induction pre as [|h pre IH]; intros rest d st Hf Hpre; simpl.
  - exists []. rewrite add_events_nil. split; reflexivity.
  - inversion Hpre as [|? ? Hh Hpre']; subst.
    destruct (monitorEnumCallback_spec f h d st Hf) as (d1 & evs1 & Hcb & _ & _ & Hd & Hc).
    unfold bind at 1. rewrite Hcb, Hh. simpl. rewrite (Hd Hh).
    destruct (IH rest d (add_events evs1 st) Hf Hpre') as (evs2 & Hv & Hc2).
    exists (evs1 ++ evs2). rewrite Hv, add_events_app. split; [reflexivity|].
    rewrite consulted_app, Hc, Hc2. reflexivity.
Qed.

(** The enumeration ends at an accepted monitor: what follows it in the list
    has no influence on the result or on the final state. *)
Lemma visit_monitors_stops f h pre : forall post d st,
  getDpiForMonitor st = Some f ->
  usable P f h = true ->
  visit_monitors (monitorEnumCallback P) (pre ++ h :: post) d st =
  visit_monitors (monitorEnumCallback P) (pre ++ [h]) d st.
Proof.
  induction pre as [|a pre IH]; intros post d st Hf Hh; simpl.
  - destruct (monitorEnumCallback_spec f h d st Hf) as (d1 & evs1 & Hcb & _).
    unfold bind. rewrite Hcb, Hh. reflexivity.
  - destruct (monitorEnumCallback_spec f a d st Hf) as (d1 & evs1 & Hcb & _).
    unfold bind. rewrite Hcb.
    destruct (negb (usable P f a)); [|reflexivity].
    apply IH; assumption.
Qed.

Lemma readDPI_spec f d st :
  getDpiForMonitor st = Some f ->
  exists d' evs,
    readDPI P d st = Some ((negb (fst d' =? 0), d'), add_events evs st) /\
    Forall (fun e => is_display_event e = true) evs.
Proof.
  intros Hf. unfold readDPI, EnumDisplayMonitors, bind, emit, modify.
  destruct (visit_monitors_spec f (monitors P) d (add_event EvEnumDisplayMonitors st) Hf)
    as (d' & evs & Hv & Hev).
  rewrite Hv. exists d', (EvEnumDisplayMonitors :: evs).
  split.
  - unfold add_events, add_event. simpl. rewrite <- app_assoc. reflexivity.
  - constructor; [reflexivity | assumption].
Qed.

End DisplayProbe.

(** ** The alphabet of [QString::number] *)

Lemma list_ascii_of_string_app s1 s2 :
  list_ascii_of_string (s1 +:+ s2) = list_ascii_of_string s1 ++ list_ascii_of_string s2.
Proof. induction s1 as [|c s1 IH]; simpl; [reflexivity | rewrite IH; reflexivity]. Qed.

Lemma c_locale_text_app s1 s2 :
  c_locale_text s1 -> c_locale_text s2 -> c_locale_text (s1 +:+ s2).
Proof.
  unfold c_locale_text. rewrite list_ascii_of_string_app, Forall_app. auto.
Qed.

Lemma c_locale_text_substring s : forall n m,
  c_locale_text s -> c_locale_text (substring n m s).
Proof.
  unfold c_locale_text.
  induction s as [|c s IH]; intros n m H.
  - destruct n, m; simpl; constructor.
  - inversion H as [|? ? Hc Hs]; subst.
    destruct n; [destruct m|]; simpl.
    + constructor.
    + constructor; [exact Hc | apply IH; exact Hs].
    + apply IH; exact Hs.
Qed.

Lemma c_locale_text_zeros n : c_locale_text (zeros n).
Proof.
  unfold c_locale_text. induction n as [|n IH]; simpl; constructor; [reflexivity | exact IH].
Qed.

Lemma digit_char_c_locale d : 0 <= d < 10 -> c_locale_char (digit_char d) = true.
Proof.
  intros H.
  assert (Hd : d = 0 \/ d = 1 \/ d = 2 \/ d = 3 \/ d = 4 \/
               d = 5 \/ d = 6 \/ d = 7 \/ d = 8 \/ d = 9) by lia.
  repeat (destruct Hd as [-> | Hd]; [reflexivity|]). subst d. reflexivity.
Qed.

Lemma c_locale_text_digits_of k : forall n acc,
  c_locale_text acc -> c_locale_text (digits_of k n acc).
Proof.
  induction k as [|k IH]; intros n acc H; simpl; [exact H|].
  apply IH. constructor; [|exact H].
  apply digit_char_c_locale. apply Z.mod_pos_bound. lia.
Qed.

Lemma strip_zeros_rev_Forall (p : ascii -> Prop) l :
  Forall p l -> Forall p (strip_zeros_rev l).
Proof.
  induction 1 as [|c l Hc Hl IH]; simpl; [constructor|].
  destruct (Ascii.eqb c "0"); [exact IH | constructor; assumption].
Qed.

Lemma c_locale_text_chop s : c_locale_text s -> c_locale_text (chop_trailing_zeros s).
Proof.
  unfold c_locale_text, chop_trailing_zeros. intros H.
  assert (Hs : Forall (fun c => c_locale_char c = true)
                 (strip_zeros_rev (rev (list_ascii_of_string s)))).
  { apply strip_zeros_rev_Forall, Forall_rev, H. }
  destruct (strip_zeros_rev (rev (list_ascii_of_string s))) as [|c l] eqn:E.
  - repeat constructor.
  - rewrite list_ascii_of_string_of_list_ascii. apply Forall_rev, Hs.
Qed.

Lemma c_locale_text_decimalForm digits decpt :
  c_locale_text digits -> c_locale_text (decimalForm digits decpt).
Proof.
  intros H. unfold decimalForm.
  set (d1 := if decpt <? 0 then zeros (Z.to_nat (- decpt)) +:+ digits else digits).
  assert (H1 : c_locale_text d1).
  { unfold d1. destruct (decpt <? 0); [apply c_locale_text_app; [apply c_locale_text_zeros|]|];
      exact H. }
  set (p1 := if decpt <? 0 then 0 else decpt).
  set (d2 := if Z.of_nat (String.length d1) <? p1
             then d1 +:+ zeros (Z.to_nat (p1 - Z.of_nat (String.length d1))) else d1).
  assert (H2 : c_locale_text d2).
  { unfold d2. destruct (_ <? p1); [apply c_locale_text_app; [|apply c_locale_text_zeros]|];
      exact H1. }
  set (d3 := if p1 <? Z.of_nat (String.length d2) then _ else d2).
  assert (H3 : c_locale_text d3).
  { unfold d3. destruct (p1 <? _); [|exact H2].
    repeat apply c_locale_text_app; try (apply c_locale_text_substring; exact H2).
    repeat constructor. }
  destruct (p1 =? 0); [apply c_locale_text_app; [repeat constructor | exact H3] | exact H3].
Qed.

Lemma c_locale_text_exponentForm digits decpt :
  c_locale_text digits -> c_locale_text (exponentForm digits decpt).
Proof.
  intros H. unfold exponentForm.
  repeat apply c_locale_text_app.
  - destruct (1 <? _); [|exact H].
    repeat apply c_locale_text_app; try (apply c_locale_text_substring; exact H).
    repeat constructor.
  - repeat constructor.
  - destruct (_ <? 0); repeat constructor.
  - apply c_locale_text_digits_of. constructor.
Qed.

Lemma doubleToAscii_c_locale (P : Platform) num den :
  c_locale_text (fst (doubleToAscii P num den)).
Proof.
  unfold doubleToAscii. cbv zeta.
  match goal with
  | |- context [if ?b then (10 ^ 5, ?x) else ?y] => destruct b
  end; cbn [fst]; apply c_locale_text_chop, c_locale_text_digits_of; constructor.
Qed.

(** Whatever the value, [QString::number] writes digits, a point, an exponent
    mark and signs, or one of the words for the special values: no comma and
    no group separator. *)
Lemma QString_number_c_locale (P : Platform) d : c_locale_text (QString_number P d).
Proof.
  unfold QString_number.
  destruct (Prim2SF d) as [s|s| |s m e].
  - repeat constructor.
  - destruct s; repeat constructor.
  - repeat constructor.
  - match goal with
    | |- context [doubleToAscii P ?num ?den] =>
        pose proof (doubleToAscii_c_locale P num den) as Hd;
        destruct (doubleToAscii P num den) as [digits decpt]
    end.
    cbn [fst] in Hd.
    match goal with
    | |- context [if ?b then exponentForm digits decpt else decimalForm digits decpt] =>
        assert (Hb : c_locale_text
                       (if b then exponentForm digits decpt else decimalForm digits decpt))
          by (destruct b; [apply c_locale_text_exponentForm | apply c_locale_text_decimalForm];
              exact Hd)
    end.
    destruct s; [apply c_locale_text_app; [repeat constructor | exact Hb] | exact Hb].
Qed.

(** ** The orchestrator, gate by gate *)

Section Orchestrator.

Context (P : Platform).

Lemma isWindows8OrHigher_eq st :
  isWindows8OrHigher P st =
  Some (negb (osver_failure (initialized P st)) &&
        negb (OSVER_SYS (osver (initialized P st)) <? OSVER_TO_NUM 6 2 0),
        initialized P st).
Proof. apply _isAtLeastSystemVersion_eq. Qed.

(** The control flow of [fixQtHDPINonIntegerScaling] written out on states. *)
Lemma fixQtHDPINonIntegerScaling_eq st :
  fixQtHDPINonIntegerScaling P st =
  let st1 := initialized P st in
  if negb (negb (osver_failure st1) &&
           negb (OSVER_SYS (osver st1) <? OSVER_TO_NUM 6 2 0))
  then Some (false, st1)
  else if negb (isEmpty (default "" (environ st1 !! "QT_SCALE_FACTOR")))
  then Some (true, st1)
  else if negb (isEmpty (default "" (environ st1 !! "QT_AUTO_SCREEN_SCALE_FACTOR")))
  then Some (true, st1)
  else
    match SHCore_GetDpiForMonitor P with
    | None =>
        Some (false, set_getDpiForMonitor None
                       (add_event (EvResolve "SHCore" "GetDpiForMonitor") st1))
    | Some f =>
        match user32_SetProcessDPIAware P with
        | None =>
            Some (false, set_setProcessDPIAware None
                           (add_event (EvResolve "user32" "SetProcessDPIAware")
                              (set_getDpiForMonitor (Some f)
                                 (add_event (EvResolve "SHCore" "GetDpiForMonitor") st1))))
        | Some g =>
            match readDPI P QDpi_default (probed f g st1) with
            | Some ((ok, dpi), st2) =>
                if negb ok then Some (false, st2)
                else if fst dpi <=? 96 then Some (false, st2)
                else
                  let factor :=
                    QString_number P (PrimFloat.div (double_of_Z (fst dpi)) 96%float) in
                  Some (true,
                        set_environ (<["QT_SCALE_FACTOR" := factor]> (environ st2))
                          (add_event (Ev_g_setenv "QT_SCALE_FACTOR" factor) st2))
            | None => None
            end
        end
    end.
Proof.
  unfold fixQtHDPINonIntegerScaling. unfold bind at 1. rewrite isWindows8OrHigher_eq.
  cbv zeta.
  destruct (negb (negb (osver_failure (initialized P st)) &&
                  negb (OSVER_SYS (osver (initialized P st)) <? OSVER_TO_NUM 6 2 0)));
    [reflexivity|].
  unfold bind at 1. unfold qgetenv at 1. unfold bind at 1. unfold get_state at 1.
  unfold ret at 1.
  destruct (negb (isEmpty (default "" (environ (initialized P st) !! "QT_SCALE_FACTOR"))));
    [reflexivity|].
  unfold bind at 1. unfold qgetenv at 1. unfold bind at 1. unfold get_state at 1.
  unfold ret at 1.
  destruct (negb (isEmpty
              (default "" (environ (initialized P st) !! "QT_AUTO_SCREEN_SCALE_FACTOR"))));
    [reflexivity|].
  unfold resolve_GetDpiForMonitor, resolve_SetProcessDPIAware.
  destruct (SHCore_GetDpiForMonitor P) as [f|]; [|reflexivity].
  destruct (user32_SetProcessDPIAware P) as [g|]; [|reflexivity].
  unfold bind, emit, modify, ret. fold (probed f g (initialized P st)).
  destruct (readDPI P QDpi_default (probed f g (initialized P st)))
    as [[[ok dpi] st2]|]; [|reflexivity].
  destruct (negb ok); [reflexivity|].
  destruct (fst dpi <=? 96); [reflexivity|].
  unfold g_setenv, bind, emit, modify, get_state, ret.
  destruct (environ (add_event _ st2) !! "QT_SCALE_FACTOR"); reflexivity.
Qed.

End Orchestrator.

(** ** Histories of calls *)

Lemma same_version_cache_refl st : same_version_cache st st.
Proof. repeat split. Qed.

Lemma same_version_cache_trans st1 st2 st3 :
  same_version_cache st1 st2 -> same_version_cache st2 st3 -> same_version_cache st1 st3.
Proof.
  intros (H1 & H2 & H3) (K1 & K2 & K3). repeat split; congruence.
Qed.

Section Histories.

Context (P : Platform).

Lemma same_version_cache_isInitialized st st' :
  same_version_cache st st' ->
  isInitializedSystemVersion st' = isInitializedSystemVersion st.
Proof. intros (H & _). unfold isInitializedSystemVersion. rewrite H. reflexivity. Qed.

(** [fixQtHDPINonIntegerScaling] always returns, and past the lazy
    initialisation it neither touches the version cache nor queries the OS
    version. *)
Lemma fixQtHDPINonIntegerScaling_frame st :
  exists b st',
    fixQtHDPINonIntegerScaling P st = Some (b, st') /\
    same_version_cache (initialized P st) st'.
Proof.
  rewrite fixQtHDPINonIntegerScaling_eq. cbv zeta.
  set (st1 := initialized P st).
  destruct (negb _).
  { exists false, st1. split; [reflexivity | apply same_version_cache_refl]. }
  destruct (negb _).
  { exists true, st1. split; [reflexivity | apply same_version_cache_refl]. }
  destruct (negb _).
  { exists true, st1. split; [reflexivity | apply same_version_cache_refl]. }
  destruct (SHCore_GetDpiForMonitor P) as [f|].
  2:{ eexists _, _. split; [reflexivity|]. repeat split. simpl.
      apply select_snoc_skip. reflexivity. }
  destruct (user32_SetProcessDPIAware P) as [g|].
  2:{ eexists _, _. split; [reflexivity|]. repeat split. simpl.
      rewrite !select_snoc_skip by reflexivity. reflexivity. }
  destruct (readDPI_spec P f QDpi_default (probed f g st1) eq_refl)
    as (d & evs & Hr & Hev).
  rewrite Hr.
  assert (Hsel : select is_version_query (trace (add_events evs (probed f g st1))) =
                 select is_version_query (trace st1)).
  { simpl. rewrite select_app, (select_none _ evs Hev), app_nil_r.
    - rewrite !select_snoc_skip by reflexivity. reflexivity.
    - intros [] He; try reflexivity; discriminate He. }
  destruct (fst d =? 0); simpl.
  { eexists _, _. split; [reflexivity|]. repeat split. exact Hsel. }
  destruct (fst d <=? 96).
  { eexists _, _. split; [reflexivity|]. repeat split. exact Hsel. }
  eexists _, _. split; [reflexivity|]. repeat split.
  change (trace (set_environ ?e (add_event ?ev ?s))) with (trace s ++ [ev]).
  rewrite select_snoc_skip by reflexivity. exact Hsel.
Qed.

(** Every exported function returns; after its lazy initialisation step it
    leaves the version cache as it is. *)
Lemma exec_spec c st :
  exists r st', exec P c st = Some (r, st') /\ same_version_cache (initialized P st) st'.
Proof.
  destruct c; simpl; unfold bind;
    try (unfold isAtLeastSystemVersion, isWindowsVistaOrHigher, isWindows7OrHigher,
           isWindows8OrHigher, isWindows8Point1OrHigher, isAtLeastSystemVersion_static;
         rewrite _isAtLeastSystemVersion_eq; eexists _, _;
         split; [reflexivity | apply same_version_cache_refl]).
  - rewrite getSystemVersion_eq. eexists _, _.
    split; [reflexivity | apply same_version_cache_refl].
  - destruct (fixQtHDPINonIntegerScaling_frame st) as (b & st' & Hf & Hs).
    rewrite Hf. eexists _, _. split; [reflexivity | exact Hs].
Qed.

Lemma run_spec cs : forall st,
  isInitializedSystemVersion st = true ->
  exists rs st', run P cs st = Some (rs, st') /\ same_version_cache st st'.
Proof.
  induction cs as [|c cs IH]; intros st Hi; simpl.
  - exists [], st. split; [reflexivity | apply same_version_cache_refl].
  - destruct (exec_spec c st) as (r & st1 & He & Hs1).
    rewrite initialized_idem in Hs1 by exact Hi.
    assert (Hi1 : isInitializedSystemVersion st1 = true).
    { rewrite (same_version_cache_isInitialized _ _ Hs1). exact Hi. }
    destruct (IH st1 Hi1) as (rs & st2 & Hr & Hs2).
    unfold bind. rewrite He, Hr. eexists _, _.
    split; [reflexivity | eapply same_version_cache_trans; eassumption].
Qed.

(** Whatever calls a process has made so far, the cache a further call works
    with is the one the first query produced. *)
Lemma run_from_start env cs rs st :
  run P cs (initial_state env) = Some (rs, st) ->
  same_version_cache (queried P (initial_state env)) (initialized P st).
Proof.
  destruct cs as [|c cs]; simpl.
  - intros [= _ <-]. apply same_version_cache_refl.
  - destruct (exec_spec c (initial_state env)) as (r & st1 & He & Hs1).
    change (initialized P (initial_state env)) with (queried P (initial_state env)) in Hs1.
    assert (Hi1 : isInitializedSystemVersion st1 = true).
    { rewrite (same_version_cache_isInitialized _ _ Hs1). apply queried_isInitialized. }
    destruct (run_spec cs st1 Hi1) as (rs' & st2 & Hr & Hs2).
    unfold bind. rewrite He, Hr. intros [= _ <-].
    rewrite initialized_idem.
    + eapply same_version_cache_trans; eassumption.
    + rewrite (same_version_cache_isInitialized _ _ Hs2). exact Hi1.
Qed.

End Histories.

(** * The claims about the version oracle *)

(** C1 (the code departs from it).  When the version query fails,
    [getSystemVersion] reports the zeroed structure, (0, 0, 0), on every call of
    every history: the assignments of the XP default (5, 1, 0) are overwritten
    before the function returns. *)
Theorem getSystemVersion_query_failure_reports_zero
    (P : Platform) env cs rs st out :
  os_version P = None ->
  run P cs (initial_state env) = Some (rs, st) ->
  getSystemVersion P out st = Some ((0, 0, 0), initialized P st) /\
  (0, 0, 0) <> (5, 1, 0).
Proof.
  intros Hfail Hrun. split; [|discriminate].
  rewrite getSystemVersion_eq.
  destruct (run_from_start P env cs rs st Hrun) as (Ho & _ & _).
  rewrite Ho. unfold queried. rewrite Hfail. reflexivity.
Qed.

Lemma getSystemVersion_query_failure_reports_zero_witness :
  getSystemVersion failing_platform (9, 9, 9)
    (queried failing_platform (initial_state ∅)) =
  Some ((0, 0, 0), initialized failing_platform (queried failing_platform (initial_state ∅)))
  /\ (0, 0, 0) <> (5, 1, 0).
Proof.
  apply (getSystemVersion_query_failure_reports_zero failing_platform ∅
           [call_isWindows8OrHigher] [res_bool false]); reflexivity.
Defined.

(** C2.  When the version query fails, [isAtLeastSystemVersion] answers
    [false] for every requested triple, at any point of any history of
    calls. *)
Theorem isAtLeastSystemVersion_query_failure_false
    (P : Platform) env cs rs st major minor patch :
  os_version P = None ->
  run P cs (initial_state env) = Some (rs, st) ->
  isAtLeastSystemVersion P major minor patch st = Some (false, initialized P st).
Proof.
  intros Hfail Hrun. unfold isAtLeastSystemVersion.
  rewrite _isAtLeastSystemVersion_eq.
  destruct (run_from_start P env cs rs st Hrun) as (_ & Hf & _).
  rewrite Hf. unfold queried. rewrite Hfail. reflexivity.
Qed.

Lemma isAtLeastSystemVersion_query_failure_false_witness :
  isAtLeastSystemVersion failing_platform 0 0 0
    (queried failing_platform (initial_state ∅)) =
  Some (false, initialized failing_platform (queried failing_platform (initial_state ∅))).
Proof.
  apply (isAtLeastSystemVersion_query_failure_false failing_platform ∅
           [call_getSystemVersion (1, 2, 3)] [res_version (0, 0, 0)]); reflexivity.
Defined.

(** The packing does not wrap around while the major number stays below 2^12
    and the two other numbers below 2^10. *)
Lemma OSVER_TO_NUM_exact major minor patch :
  0 <= major < 2 ^ 12 -> 0 <= minor < 2 ^ 10 -> 0 <= patch < 2 ^ 10 ->
  OSVER_TO_NUM major minor patch = major * 2 ^ 20 + minor * 2 ^ 10 + patch.
Proof.
  intros HM Hm Hp. unfold OSVER_TO_NUM, u32.
  rewrite !Z.shiftl_mul_pow2 by lia.
  rewrite (Z.mod_small (major * 2 ^ 20)) by lia.
  rewrite (Z.mod_small (minor * 2 ^ 10)) by lia.
  rewrite (Z.mod_small (major * 2 ^ 20 + minor * 2 ^ 10)) by lia.
  apply Z.mod_small. lia.
Qed.

(** C3.  With a successfully cached version, [isAtLeastSystemVersion] answers
    [true] for every requested triple whose packed number is at most that of
    the cached triple, [false] for every one whose packed number is greater,
    and [true] at the cached triple itself; the cache is left as it is.  The
    packed numbers are the 32-bit ones the code computes; while no packing
    wraps around they are [major * 2^20 + minor * 2^10 + patch]. *)
Theorem isAtLeastSystemVersion_packed_order
    (P : Platform) st :
  isInitializedSystemVersion st = true ->
  osver_failure st = false ->
  (forall major minor patch,
      OSVER_TO_NUM major minor patch <= OSVER_SYS (osver st) ->
      isAtLeastSystemVersion P major minor patch st = Some (true, st)) /\
  (forall major minor patch,
      OSVER_SYS (osver st) < OSVER_TO_NUM major minor patch ->
      isAtLeastSystemVersion P major minor patch st = Some (false, st)) /\
  isAtLeastSystemVersion P (dwMajorVersion (osver st)) (dwMinorVersion (osver st))
    (wServicePackMajor (osver st)) st = Some (true, st) /\
  (forall major minor patch,
      0 <= major < 2 ^ 12 -> 0 <= minor < 2 ^ 10 -> 0 <= patch < 2 ^ 10 ->
      0 <= dwMajorVersion (osver st) < 2 ^ 12 ->
      0 <= dwMinorVersion (osver st) < 2 ^ 10 ->
      0 <= wServicePackMajor (osver st) < 2 ^ 10 ->
      isAtLeastSystemVersion P major minor patch st =
      Some (major * 2 ^ 20 + minor * 2 ^ 10 + patch <=?
            dwMajorVersion (osver st) * 2 ^ 20 + dwMinorVersion (osver st) * 2 ^ 10 +
            wServicePackMajor (osver st), st)).
Proof.
  intros Hi Hf.
  assert (H : forall major minor patch,
             isAtLeastSystemVersion P major minor patch st =
             Some (negb (OSVER_SYS (osver st) <? OSVER_TO_NUM major minor patch), st)).
  { intros. unfold isAtLeastSystemVersion. rewrite _isAtLeastSystemVersion_eq.
    rewrite (initialized_idem P st Hi), Hf. reflexivity. }
  split; [|split; [|split]].
  - intros major minor patch Hle. rewrite H.
    destruct (Z.ltb_spec (OSVER_SYS (osver st)) (OSVER_TO_NUM major minor patch));
      [lia | reflexivity].
  - intros major minor patch Hlt. rewrite H.
    destruct (Z.ltb_spec (OSVER_SYS (osver st)) (OSVER_TO_NUM major minor patch));
      [reflexivity | lia].
  - rewrite H. fold (OSVER_SYS (osver st)). rewrite Z.ltb_irrefl. reflexivity.
  - intros major minor patch HM Hm Hp HM' Hm' Hp'. rewrite H. unfold OSVER_SYS.
    rewrite !OSVER_TO_NUM_exact by assumption.
    rewrite Z.leb_antisym. reflexivity.
Qed.

Lemma isAtLeastSystemVersion_packed_order_witness :
  isAtLeastSystemVersion hidpi_platform 6 2 0 (queried hidpi_platform (initial_state ∅)) =
  Some (true, queried hidpi_platform (initial_state ∅)).
Proof.
  apply (proj1 (isAtLeastSystemVersion_packed_order hidpi_platform
                  (queried hidpi_platform (initial_state ∅)) eq_refl eq_refl)).
  vm_compute. discriminate.
Defined.

(** C4.  On triples whose components are all below 2^10, comparing the packed
    numbers with [>=] gives the same answer as comparing the triples
    lexicographically. *)
Theorem packed_comparison_is_lexicographic major minor patch major' minor' patch' :
  0 <= major < 2 ^ 10 -> 0 <= minor < 2 ^ 10 -> 0 <= patch < 2 ^ 10 ->
  0 <= major' < 2 ^ 10 -> 0 <= minor' < 2 ^ 10 -> 0 <= patch' < 2 ^ 10 ->
  (OSVER_TO_NUM major minor patch >=? OSVER_TO_NUM major' minor' patch') =
  tuple_ge (major, minor, patch) (major', minor', patch').
Proof.
  intros HM Hm Hp HM' Hm' Hp'.
  rewrite !OSVER_TO_NUM_exact by lia.
  unfold tuple_ge. rewrite Z.geb_leb.
  destruct (Z.leb_spec (major' * 2 ^ 20 + minor' * 2 ^ 10 + patch')
                       (major * 2 ^ 20 + minor * 2 ^ 10 + patch));
    destruct (Z.ltb_spec major' major); destruct (Z.eqb_spec major major');
    destruct (Z.ltb_spec minor' minor); destruct (Z.eqb_spec minor minor');
    destruct (Z.leb_spec patch' patch); simpl; try reflexivity; exfalso; lia.
Qed.

Lemma packed_comparison_is_lexicographic_witness :
  (OSVER_TO_NUM 6 3 0 >=? OSVER_TO_NUM 6 2 1) = tuple_ge (6, 3, 0) (6, 2, 1).
Proof.
  apply (packed_comparison_is_lexicographic 6 3 0 6 2 1); lia.
Defined.

(** C9.  Whatever exported function is called first, it returns and has
    queried the OS version exactly once; every later history of calls returns
    as well and leaves the cached structure, the failure flag and the number
    of queries unchanged, whether that first query succeeded or failed. *)
Theorem version_cache_initialized_once (P : Platform) env c :
  exists r st1,
    exec P c (initial_state env) = Some (r, st1) /\
    isInitializedSystemVersion st1 = true /\
    osver_failure st1 = match os_version P with Some _ => false | None => true end /\
    select is_version_query (trace st1) = [EvGetVersionEx] /\
    forall cs, exists rs stn,
      run P cs st1 = Some (rs, stn) /\
      osver stn = osver st1 /\
      osver_failure stn = osver_failure st1 /\
      select is_version_query (trace stn) = [EvGetVersionEx].
Proof.
  destruct (exec_spec P c (initial_state env)) as (r & st1 & He & Hs).
  change (initialized P (initial_state env)) with (queried P (initial_state env)) in Hs.
  assert (Hi : isInitializedSystemVersion st1 = true).
  { rewrite (same_version_cache_isInitialized _ _ Hs). apply queried_isInitialized. }
  destruct Hs as (Ho & Hf & Ht).
  assert (Hq : select is_version_query (trace st1) = [EvGetVersionEx]).
  { rewrite Ht. unfold queried. destruct (os_version P); reflexivity. }
  exists r, st1. repeat split; try assumption.
  - rewrite Hf. unfold queried. destruct (os_version P); reflexivity.
  - intros cs. destruct (run_spec P cs st1 Hi) as (rs & stn & Hr & Ho' & Hf' & Ht').
    exists rs, stn. repeat split; congruence.
Qed.

(** * The claims about the display probe *)

Section DeviceContext.

Context (P : Platform).

(** The device-context path of [monitorData]: the context is opened, read on
    both axes and released, and the monitor is accepted whatever was read. *)
Lemma monitorData_device_context f h d st name :
  getDpiForMonitor st = Some f ->
  usable P f h = true ->
  GetMonitorInfo P h = Some name ->
  match f h 0 with Some (dpiX, _) => dpiX = 0 | None => True end ->
  monitorData P h d st =
  Some ((true, (GetDeviceCaps P (CreateDC P name) LOGPIXELSX,
                GetDeviceCaps P (CreateDC P name) LOGPIXELSY)),
        add_events [EvGetMonitorInfo h; EvGetDpiForMonitor h; EvCreateDC name;
                    EvGetDeviceCaps (CreateDC P name) LOGPIXELSX;
                    EvGetDeviceCaps (CreateDC P name) LOGPIXELSY;
                    EvDeleteDC (CreateDC P name)] st).
Proof.
  intros Hf Hu Hinfo Hzero. unfold usable in Hu. rewrite Hinfo in Hu.
  unfold monitorData, bind, emit, modify. rewrite Hinfo.
  destruct (String.eqb name "WinDisc"); [discriminate Hu|].
  rewrite (monitorDPI_eq f) by exact Hf.
  assert (Hdc : (CreateDC P name =? 0) = false).
  { destruct (f h 0) as [[x y]|]; [subst x|]; simpl in Hu;
      destruct (CreateDC P name =? 0); [discriminate Hu | reflexivity
                                       | discriminate Hu | reflexivity]. }
  destruct (f h 0) as [[x y]|]; [subst x|]; simpl; rewrite Hdc; simpl;
    unfold add_events, add_event, ret; simpl; rewrite <- !app_assoc; reflexivity.
Qed.

End DeviceContext.

(** C8.  A monitor whose device is named "WinDisc" is rejected by
    [monitorData] before any DPI is asked for and without touching the
    caller's value; an enumeration walks past it; and when it is the only
    monitor, [readDPI] returns [false]. *)
Theorem WinDisc_is_never_a_DPI_source (P : Platform) h :
  GetMonitorInfo P h = Some "WinDisc" ->
  (forall d st,
      monitorData P h d st = Some ((false, d), add_events [EvGetMonitorInfo h] st)) /\
  (forall rest d st,
      visit_monitors (monitorEnumCallback P) (h :: rest) d st =
      visit_monitors (monitorEnumCallback P) rest d (add_events [EvGetMonitorInfo h] st)) /\
  (monitors P = [h] ->
   forall st,
     readDPI P QDpi_default st =
     Some ((false, QDpi_default),
           add_events [EvEnumDisplayMonitors; EvGetMonitorInfo h] st)).
Proof.
  intros Hname.
  assert (Hm : forall d st,
             monitorData P h d st = Some ((false, d), add_events [EvGetMonitorInfo h] st)).
  { intros d st. unfold monitorData, bind, emit, modify. rewrite Hname. reflexivity. }
  assert (Hv : forall rest d st,
             visit_monitors (monitorEnumCallback P) (h :: rest) d st =
             visit_monitors (monitorEnumCallback P) rest d
               (add_events [EvGetMonitorInfo h] st)).
  { intros rest d st. simpl. unfold bind, monitorEnumCallback, bind. rewrite Hm.
    reflexivity. }
  split; [exact Hm | split; [exact Hv|]].
  intros Hone st. unfold readDPI, EnumDisplayMonitors, bind, emit, modify.
  rewrite Hone, Hv. simpl. unfold ret, add_events, add_event. simpl.
  rewrite <- app_assoc. reflexivity.
Qed.

Lemma WinDisc_is_never_a_DPI_source_witness :
  readDPI lid_closed_platform QDpi_default
    (probed (fun _ _ => Some (96, 96)) (fun _ => true) (initial_state ∅)) =
  Some ((false, QDpi_default),
        add_events [EvEnumDisplayMonitors; EvGetMonitorInfo 1]
          (probed (fun _ _ => Some (96, 96)) (fun _ => true) (initial_state ∅))).
Proof.
  apply (proj2 (proj2 (WinDisc_is_never_a_DPI_source lid_closed_platform 1 eq_refl)));
    reflexivity.
Defined.

(** C10.  The enumeration ends at the first monitor [monitorData] accepts:
    the monitors after it change neither the result nor the final state.
    When that monitor is accepted through its device context and the context
    reports a horizontal logical DPI of 0, [readDPI] returns [false] with
    that zero stored, having consulted the monitors up to it and no other. *)
Theorem readDPI_stops_at_first_accepted_monitor (P : Platform) f h st :
  getDpiForMonitor st = Some f ->
  usable P f h = true ->
  (forall pre post d,
      visit_monitors (monitorEnumCallback P) (pre ++ h :: post) d st =
      visit_monitors (monitorEnumCallback P) (pre ++ [h]) d st) /\
  (forall pre post name,
      monitors P = pre ++ h :: post ->
      Forall (fun h' => usable P f h' = false) pre ->
      GetMonitorInfo P h = Some name ->
      match f h 0 with Some (dpiX, _) => dpiX = 0 | None => True end ->
      GetDeviceCaps P (CreateDC P name) LOGPIXELSX = 0 ->
      exists evs,
        readDPI P QDpi_default st =
        Some ((false, (0, GetDeviceCaps P (CreateDC P name) LOGPIXELSY)),
              add_events evs st) /\
        consulted evs = pre ++ [h]).
Proof.
  intros Hf Hu. split.
  - intros pre post d. apply (visit_monitors_stops P f); assumption.
  - intros pre post name Hmon Hpre Hinfo Hzero Hcaps.
    unfold readDPI, EnumDisplayMonitors, bind, emit, modify. rewrite Hmon.
    destruct (visit_monitors_rejected P f pre (h :: post) QDpi_default
                (add_event EvEnumDisplayMonitors st) Hf Hpre) as (evs & Hv & Hc).
    rewrite Hv. simpl. unfold bind, monitorEnumCallback, bind.
    rewrite (monitorData_device_context P f h _ _ name) by assumption.
    rewrite Hcaps. simpl. unfold ret.
    eexists (EvEnumDisplayMonitors :: evs ++ _). split.
    + unfold add_events, add_event. simpl. rewrite <- !app_assoc. reflexivity.
    + simpl. rewrite consulted_app, Hc. reflexivity.
Qed.

Lemma readDPI_stops_at_first_accepted_monitor_witness :
  exists evs,
    readDPI stale_driver_platform QDpi_default
      (probed stale_driver_query (fun _ => true) (initial_state ∅)) =
    Some ((false, (0, 0)),
          add_events evs (probed stale_driver_query (fun _ => true) (initial_state ∅))) /\
    consulted evs = [1; 2].
Proof.
  apply (proj2 (readDPI_stops_at_first_accepted_monitor stale_driver_platform
                  stale_driver_query 2
                  (probed stale_driver_query (fun _ => true) (initial_state ∅))
                  eq_refl eq_refl) [1] [3] "DISPLAY1"); try reflexivity.
  repeat constructor.
Defined.

(** * The claims about the scaling orchestrator *)

Lemma user_override_nonempty name st :
  user_override name st -> negb (isEmpty (default "" (environ st !! name))) = true.
Proof.
  intros (v & Hv & Hne). rewrite Hv. simpl. unfold isEmpty.
  destruct (String.eqb_spec v ""); [contradiction | reflexivity].
Qed.

Lemma no_user_override_empty name st :
  ~ user_override name st -> negb (isEmpty (default "" (environ st !! name))) = false.
Proof.
  intros Hno. destruct (environ st !! name) as [v|] eqn:Hv; simpl; [|reflexivity].
  unfold isEmpty. destruct (String.eqb_spec v ""); [reflexivity|].
  exfalso. apply Hno. exists v. split; assumption.
Qed.

Lemma user_override_initialized P name st :
  user_override name (initialized P st) <-> user_override name st.
Proof. unfold user_override. rewrite initialized_environ. reflexivity. Qed.

(** What it means for the version gate to let a call through. *)
Lemma isWindows8OrHigher_passed P st st1 :
  isWindows8OrHigher P st = Some (true, st1) ->
  st1 = initialized P st /\
  negb (negb (osver_failure (initialized P st)) &&
        negb (OSVER_SYS (osver (initialized P st)) <? OSVER_TO_NUM 6 2 0)) = false.
Proof.
  rewrite isWindows8OrHigher_eq. intros [= Hb Hst]. rewrite Hb. split; [auto | reflexivity].
Qed.

(** C5.  Past the version gate, a non-empty [QT_SCALE_FACTOR] or
    [QT_AUTO_SCREEN_SCALE_FACTOR] makes [fixQtHDPINonIntegerScaling] return
    [true] in the state the gate left: the environment is the one it started
    with, and neither an environment write nor any display call was made. *)
Theorem user_override_is_left_alone (P : Platform) st st1 :
  isWindows8OrHigher P st = Some (true, st1) ->
  user_override "QT_SCALE_FACTOR" st \/ user_override "QT_AUTO_SCREEN_SCALE_FACTOR" st ->
  fixQtHDPINonIntegerScaling P st = Some (true, st1) /\
  environ st1 = environ st /\
  select is_env_write (trace st1) = select is_env_write (trace st) /\
  select is_display_event (trace st1) = select is_display_event (trace st).
Proof.
  intros Hgate Hov. destruct (isWindows8OrHigher_passed P st st1 Hgate) as (-> & Hb).
  split; [|split; [apply initialized_environ | split; apply initialized_select; reflexivity]].
  rewrite fixQtHDPINonIntegerScaling_eq. cbv zeta. rewrite Hb.
  destruct Hov as [Hov | Hov];
    apply (user_override_initialized P) in Hov; apply user_override_nonempty in Hov.
  - rewrite Hov. reflexivity.
  - rewrite Hov.
    destruct (negb (isEmpty (default "" (environ (initialized P st) !! "QT_SCALE_FACTOR"))));
      reflexivity.
Qed.

Lemma user_override_is_left_alone_witness :
  fixQtHDPINonIntegerScaling hidpi_platform (initial_state {["QT_SCALE_FACTOR" := "2"]}) =
  Some (true, queried hidpi_platform (initial_state {["QT_SCALE_FACTOR" := "2"]})) /\
  environ (queried hidpi_platform (initial_state {["QT_SCALE_FACTOR" := "2"]})) =
  environ (initial_state {["QT_SCALE_FACTOR" := "2"]}) /\
  select is_env_write
    (trace (queried hidpi_platform (initial_state {["QT_SCALE_FACTOR" := "2"]}))) =
  select is_env_write (trace (initial_state {["QT_SCALE_FACTOR" := "2"]})) /\
  select is_display_event
    (trace (queried hidpi_platform (initial_state {["QT_SCALE_FACTOR" := "2"]}))) =
  select is_display_event (trace (initial_state {["QT_SCALE_FACTOR" := "2"]})).
Proof.
  apply (user_override_is_left_alone hidpi_platform
           (initial_state {["QT_SCALE_FACTOR" := "2"]})).
  - reflexivity.
  - left. exists "2". split; [reflexivity | discriminate].
Defined.

Lemma snoc_neq {A} (l : list A) (x : A) (l' : list A) : l ++ x :: l' <> l.
Proof.
  intros H. apply (f_equal (@List.length A)) in H. rewrite List.length_app in H.
  simpl in H. lia.
Qed.

(** C6.  On a platform where [GetDpiForMonitor] or [SetProcessDPIAware] does
    not resolve, [fixQtHDPINonIntegerScaling] returns with the environment as
    it was, no environment write and no display call; whenever it attempted a
    resolution its result is [false]; and past the version gate with neither
    variable set it does attempt one. *)
Theorem missing_capability_not_applicable (P : Platform) st :
  SHCore_GetDpiForMonitor P = None \/ user32_SetProcessDPIAware P = None ->
  exists b st',
    fixQtHDPINonIntegerScaling P st = Some (b, st') /\
    environ st' = environ st /\
    select is_env_write (trace st') = select is_env_write (trace st) /\
    select is_display_event (trace st') = select is_display_event (trace st) /\
    (select is_resolve (trace st') <> select is_resolve (trace st) -> b = false) /\
    (forall st1,
        isWindows8OrHigher P st = Some (true, st1) ->
        ~ user_override "QT_SCALE_FACTOR" st ->
        ~ user_override "QT_AUTO_SCREEN_SCALE_FACTOR" st ->
        b = false /\ select is_resolve (trace st') <> select is_resolve (trace st)).
Proof.
  intros Hcap.
  rewrite fixQtHDPINonIntegerScaling_eq, isWindows8OrHigher_eq. cbv zeta.
  assert (Hearly : forall b,
    environ (initialized P st) = environ st /\
    select is_env_write (trace (initialized P st)) = select is_env_write (trace st) /\
    select is_display_event (trace (initialized P st)) =
      select is_display_event (trace st) /\
    (select is_resolve (trace (initialized P st)) <> select is_resolve (trace st) ->
     b = false)).
  { intros b.
    split; [apply initialized_environ | split; [|split]];
      try (apply initialized_select; reflexivity).
    intros Hne. exfalso. apply Hne. apply initialized_select. reflexivity. }
  destruct (negb (osver_failure (initialized P st)) &&
            negb (OSVER_SYS (osver (initialized P st)) <? OSVER_TO_NUM 6 2 0)); simpl.
  2:{ exists false, (initialized P st). split; [reflexivity|].
      destruct (Hearly false) as (H1 & H2 & H3 & H4).
      split; [exact H1 | split; [exact H2 | split; [exact H3 | split; [exact H4|]]]].
      intros st1 Hgate. discriminate Hgate. }
  destruct (negb (isEmpty (default "" (environ (initialized P st) !! "QT_SCALE_FACTOR"))))
    eqn:E1.
  { exists true, (initialized P st). split; [reflexivity|].
    destruct (Hearly true) as (H1 & H2 & H3 & H4).
    split; [exact H1 | split; [exact H2 | split; [exact H3 | split; [exact H4|]]]].
    intros st1 _ Hno1 _. exfalso.
    rewrite <- (user_override_initialized P) in Hno1.
    rewrite (no_user_override_empty _ _ Hno1) in E1. discriminate E1. }
  destruct (negb (isEmpty
              (default "" (environ (initialized P st) !! "QT_AUTO_SCREEN_SCALE_FACTOR"))))
    eqn:E2.
  { exists true, (initialized P st). split; [reflexivity|].
    destruct (Hearly true) as (H1 & H2 & H3 & H4).
    split; [exact H1 | split; [exact H2 | split; [exact H3 | split; [exact H4|]]]].
    intros st1 _ _ Hno2. exfalso.
    rewrite <- (user_override_initialized P) in Hno2.
    rewrite (no_user_override_empty _ _ Hno2) in E2. discriminate E2. }
  assert (Hres : forall e, is_resolve e = true ->
            select is_resolve (trace (initialized P st) ++ [e]) <>
            select is_resolve (trace st)).
  { intros e He. rewrite select_app, (initialized_select P is_resolve st eq_refl).
    simpl. rewrite He. apply snoc_neq. }
  destruct (SHCore_GetDpiForMonitor P) as [f|].
  - destruct Hcap as [Hcap | Hcap]; [discriminate Hcap|]. rewrite Hcap.
    eexists false, _. split; [reflexivity|]. simpl.
    rewrite !select_snoc_skip by reflexivity.
    split; [apply initialized_environ|].
    split; [apply initialized_select; reflexivity|].
    split; [apply initialized_select; reflexivity|].
    assert (Hne : select is_resolve
                    ((trace (initialized P st) ++ [EvResolve "SHCore" "GetDpiForMonitor"]) ++
                     [EvResolve "user32" "SetProcessDPIAware"]) <>
                  select is_resolve (trace st)).
    { rewrite <- app_assoc, select_app, (initialized_select P is_resolve st eq_refl).
      simpl. apply snoc_neq. }
    split; [reflexivity | intros; split; [reflexivity | exact Hne]].
  - eexists false, _. split; [reflexivity|]. simpl.
    rewrite !select_snoc_skip by reflexivity.
    split; [apply initialized_environ|].
    split; [apply initialized_select; reflexivity|].
    split; [apply initialized_select; reflexivity|].
    split; [reflexivity | intros; split; [reflexivity | apply Hres; reflexivity]].
Qed.

Lemma missing_capability_not_applicable_witness :
  exists st',
    fixQtHDPINonIntegerScaling no_shcore_platform (initial_state ∅) = Some (false, st') /\
    environ st' = environ (initial_state ∅) /\
    select is_env_write (trace st') = [] /\
    select is_display_event (trace st') = [].
Proof.
  destruct (missing_capability_not_applicable no_shcore_platform (initial_state ∅)
              (or_introl eq_refl))
    as (b & st' & Hfix & Henv & Hw & Hd & _ & Hgate).
  destruct (Hgate (queried no_shcore_platform (initial_state ∅)) eq_refl) as (-> & _).
  - intros (v & Hv & _). discriminate Hv.
  - intros (v & Hv & _). discriminate Hv.
  - exists st'. repeat split; assumption.
Defined.

(** C7.  Past all gates and with a DPI resolved, [fixQtHDPINonIntegerScaling]
    returns [true] exactly when the horizontal DPI exceeds 96.  In that case
    its one environment write sets [QT_SCALE_FACTOR] to [QString::number] of
    the DPI divided by 96.0; otherwise the environment is as it was and
    nothing was written.  144 DPI is rendered as "1.5" and 192 DPI as "2", and
    every rendering is made of digits, the point, the exponent mark and signs
    only (or spells a special value). *)
Theorem scale_factor_published_above_96 (P : Platform) st st1 f g dpi st2 :
  isWindows8OrHigher P st = Some (true, st1) ->
  ~ user_override "QT_SCALE_FACTOR" st ->
  ~ user_override "QT_AUTO_SCREEN_SCALE_FACTOR" st ->
  SHCore_GetDpiForMonitor P = Some f ->
  user32_SetProcessDPIAware P = Some g ->
  readDPI P QDpi_default (probed f g st1) = Some ((true, dpi), st2) ->
  (exists st',
      fixQtHDPINonIntegerScaling P st = Some (96 <? fst dpi, st') /\
      (96 < fst dpi ->
       environ st' =
       <["QT_SCALE_FACTOR" :=
           QString_number P (PrimFloat.div (double_of_Z (fst dpi)) 96%float)]> (environ st) /\
       select is_env_write (trace st') =
       select is_env_write (trace st) ++
       [Ev_g_setenv "QT_SCALE_FACTOR"
          (QString_number P (PrimFloat.div (double_of_Z (fst dpi)) 96%float))]) /\
      (fst dpi <= 96 ->
       environ st' = environ st /\
       select is_env_write (trace st') = select is_env_write (trace st))) /\
  QString_number P (PrimFloat.div (double_of_Z 144) 96%float) = "1.5" /\
  QString_number P (PrimFloat.div (double_of_Z 192) 96%float) = "2" /\
  (forall x, c_locale_text (QString_number P x)).
Proof.
  intros Hgate Hno1 Hno2 Hf Hg Hread.
  split; [|split; [reflexivity | split; [reflexivity | apply QString_number_c_locale]]].
  destruct (isWindows8OrHigher_passed P st st1 Hgate) as (-> & Hb).
  rewrite fixQtHDPINonIntegerScaling_eq. cbv zeta. rewrite Hb.
  rewrite <- (user_override_initialized P) in Hno1, Hno2.
  rewrite (no_user_override_empty _ _ Hno1), (no_user_override_empty _ _ Hno2).
  rewrite Hf, Hg, Hread. simpl negb. cbv iota.
  destruct (readDPI_spec P f QDpi_default (probed f g (initialized P st)) eq_refl)
    as (d & evs & Hr & Hev).
  rewrite Hread in Hr. injection Hr as _ -> ->.
  assert (Hsel : select is_env_write (trace (add_events evs (probed f g (initialized P st)))) =
                 select is_env_write (trace st)).
  { simpl. rewrite select_app, (select_none _ evs Hev), app_nil_r.
    - rewrite !select_snoc_skip by reflexivity. apply initialized_select. reflexivity.
    - intros [] He; try reflexivity; discriminate He. }
  assert (Henv : environ (add_events evs (probed f g (initialized P st))) = environ st).
  { simpl. apply initialized_environ. }
  destruct (Z.leb_spec (fst d) 96) as [Hle | Hgt].
  - eexists. replace (96 <? fst d) with false by (symmetry; apply Z.ltb_ge; lia).
    split; [reflexivity|]. split; [lia|]. intros _. split; assumption.
  - eexists. replace (96 <? fst d) with true by (symmetry; apply Z.ltb_lt; lia).
    split; [reflexivity|]. split; [|lia]. intros _. split.
    + simpl. rewrite initialized_environ. reflexivity.
    + change (trace (set_environ ?e (add_event ?ev ?s))) with (trace s ++ [ev]).
      rewrite select_app, Hsel. reflexivity.
Qed.

Lemma scale_factor_published_above_96_witness :
  exists st',
    fixQtHDPINonIntegerScaling hidpi_platform (initial_state ∅) = Some (true, st') /\
    environ st' = <["QT_SCALE_FACTOR" := "1.5"]> ∅ /\
    select is_env_write (trace st') = [Ev_g_setenv "QT_SCALE_FACTOR" "1.5"].
Proof.
  destruct (scale_factor_published_above_96 hidpi_platform (initial_state ∅)
              (queried hidpi_platform (initial_state ∅))
              hidpi_query always_aware (144, 144)
              (add_events [EvEnumDisplayMonitors; EvGetMonitorInfo 1;
                           EvGetMonitorInfo 2; EvGetDpiForMonitor 2]
                 (probed hidpi_query always_aware
                    (queried hidpi_platform (initial_state ∅)))))
    as ((st' & Hfix & Hset & _) & _).
  - reflexivity.
  - intros (v & Hv & _). discriminate Hv.
  - intros (v & Hv & _). discriminate Hv.
  - reflexivity.
  - reflexivity.
  - reflexivity.
  - exists st'. split; [exact Hfix|]. apply Hset. reflexivity.
Defined.

(** * Further properties *)

(** ** The probe as a function of the platform *)

Lemma released_app t1 t2 : released (t1 ++ t2) = released t1 ++ released t2.
Proof.
  induction t1 as [|e t1 IH]; simpl; [reflexivity|].
  destruct e; simpl; rewrite ?IH; reflexivity.
Qed.

Lemma read_contexts_app t1 t2 :
  read_contexts (t1 ++ t2) = read_contexts t1 ++ read_contexts t2.
Proof.
  induction t1 as [|e t1 IH]; simpl; [reflexivity|].
  destruct e; simpl; rewrite ?IH; reflexivity.
Qed.

Lemma opened_app P t1 t2 : opened P (t1 ++ t2) = opened P t1 ++ opened P t2.
Proof.
  induction t1 as [|e t1 IH]; simpl; [reflexivity|].
  destruct e; simpl; rewrite ?IH; try reflexivity.
  destruct (CreateDC P device =? 0); reflexivity.
Qed.

Section Scan.

Context (P : Platform).

Lemma monitorData_scan f h d st :
  getDpiForMonitor st = Some f ->
  monitorData P h d st =
  Some (fst (scan_monitor P f h d), add_events (snd (scan_monitor P f h d)) st).
Proof.
  intros Hf. unfold monitorData, scan_monitor, bind, emit, modify.
  destruct (GetMonitorInfo P h) as [name|]; [|reflexivity].
  destruct (String.eqb name "WinDisc"); [reflexivity|].
  rewrite (monitorDPI_eq f) by exact Hf.
  destruct (f h 0) as [[x y]|]; cbn [fst];
    try destruct (x =? 0); cbn [negb];
    destruct (CreateDC P name =? 0); simpl;
    unfold add_events, add_event, ret; simpl; rewrite <- ?app_assoc; reflexivity.
Qed.

Lemma visit_monitors_scan f hs : forall d st,
  getDpiForMonitor st = Some f ->
  visit_monitors (monitorEnumCallback P) hs d st =
  Some (fst (scan_monitors P f hs d), add_events (snd (scan_monitors P f hs d)) st).
Proof.
  induction hs as [|h rest IH]; intros d st Hf; simpl.
  - rewrite add_events_nil. reflexivity.
  - unfold bind, monitorEnumCallback, bind. rewrite (monitorData_scan f) by exact Hf.
    destruct (scan_monitor P f h d) as [[found d'] evs]. simpl.
    destruct found; simpl; [reflexivity|].
    rewrite IH by exact Hf.
    destruct (scan_monitors P f rest d') as [d'' evs']. simpl.
    rewrite add_events_app. reflexivity.
Qed.

Lemma readDPI_scan f d st :
  getDpiForMonitor st = Some f ->
  readDPI P d st =
  Some ((negb (fst (fst (scan_monitors P f (monitors P) d)) =? 0),
         fst (scan_monitors P f (monitors P) d)),
        add_events (EvEnumDisplayMonitors :: snd (scan_monitors P f (monitors P) d)) st).
Proof.
  intros Hf. unfold readDPI, EnumDisplayMonitors, bind, emit, modify.
  rewrite (visit_monitors_scan f) by exact Hf.
  unfold ret, add_events, add_event. simpl. rewrite <- app_assoc. reflexivity.
Qed.

End Scan.

Section ScanFacts.

Context (P : Platform).

Lemma scan_monitor_usable f h d : fst (fst (scan_monitor P f h d)) = usable P f h.
Proof.
  unfold scan_monitor, usable.
  destruct (GetMonitorInfo P h) as [name|]; [|reflexivity].
  destruct (String.eqb name "WinDisc"); [reflexivity|].
  destruct (f h 0) as [[x y]|]; cbn [fst];
    try destruct (x =? 0); cbn [negb];
    destruct (CreateDC P name =? 0); reflexivity.
Qed.

(** The calls [monitorData] makes: it asks for the information of its monitor
    only, releases exactly the device contexts it obtained, reads no other
    device context (two reads each), and makes no step of the probing
    protocol. *)
Lemma scan_monitor_events f h d :
  consulted (snd (scan_monitor P f h d)) = [h] /\
  released (snd (scan_monitor P f h d)) = opened P (snd (scan_monitor P f h d)) /\
  read_contexts (snd (scan_monitor P f h d)) =
    flat_map (fun hdc => [hdc; hdc]) (opened P (snd (scan_monitor P f h d))) /\
  select is_probe_step (snd (scan_monitor P f h d)) = [] /\
  select is_version_query (snd (scan_monitor P f h d)) = [].
Proof.
  unfold scan_monitor.
  destruct (GetMonitorInfo P h) as [name|]; [|repeat split].
  destruct (String.eqb name "WinDisc"); [repeat split|].
  destruct (f h 0) as [[x y]|]; cbn [fst];
    try destruct (x =? 0); cbn [negb];
    destruct (CreateDC P name =? 0) eqn:E; simpl; rewrite ?E; repeat split.
Qed.

Lemma scan_monitors_events f hs : forall d,
  released (snd (scan_monitors P f hs d)) = opened P (snd (scan_monitors P f hs d)) /\
  read_contexts (snd (scan_monitors P f hs d)) =
    flat_map (fun hdc => [hdc; hdc]) (opened P (snd (scan_monitors P f hs d))) /\
  select is_probe_step (snd (scan_monitors P f hs d)) = [] /\
  select is_version_query (snd (scan_monitors P f hs d)) = [].
Proof.
  induction hs as [|h rest IH]; intros d; simpl; [repeat split|].
  destruct (scan_monitor_events f h d) as (_ & H1 & H2 & H3 & H4).
  destruct (scan_monitor P f h d) as [[found d'] evs]. simpl in *.
  destruct found; simpl; [repeat split; assumption|].
  destruct (IH d') as (K1 & K2 & K3 & K4).
  destruct (scan_monitors P f rest d') as [d'' evs']. simpl in *.
  rewrite released_app, opened_app, read_contexts_app, !select_app, flat_map_app.
  rewrite H1, H2, H3, H4, K1, K2, K3, K4. repeat split.
Qed.

Lemma scan_monitor_rejected f h d :
  usable P f h = false -> snd (fst (scan_monitor P f h d)) = d.
Proof.
  unfold scan_monitor, usable.
  destruct (GetMonitorInfo P h) as [name|]; [|reflexivity].
  destruct (String.eqb name "WinDisc"); [reflexivity|].
  destruct (f h 0) as [[x y]|]; cbn [fst];
    try destruct (x =? 0); cbn [negb];
    destruct (CreateDC P name =? 0); simpl; intros H;
    try reflexivity; discriminate H.
Qed.

(** A run of rejected monitors in front of the list only adds its calls. *)
Lemma scan_monitors_rejected f pre : forall rest d,
  Forall (fun h => usable P f h = false) pre ->
  exists evs,
    scan_monitors P f (pre ++ rest) d =
    (fst (scan_monitors P f rest d), evs ++ snd (scan_monitors P f rest d)) /\
    consulted evs = pre.
Proof.
  induction pre as [|h pre IH]; intros rest d Hpre; simpl.
  - exists []. split; [destruct (scan_monitors P f rest d); reflexivity | reflexivity].
  - inversion Hpre as [|? ? Hh Hpre']; subst.
    pose proof (scan_monitor_usable f h d) as Hu. rewrite Hh in Hu.
    pose proof (scan_monitor_rejected f h d Hh) as Hd.
    destruct (scan_monitor_events f h d) as (Hc & _).
    destruct (scan_monitor P f h d) as [[found d'] evs]. simpl in *. subst found d'.
    destruct (IH rest d Hpre') as (evs' & -> & Hc').
    exists (evs ++ evs'). rewrite <- app_assoc, consulted_app, Hc, Hc'.
    split; reflexivity.
Qed.

End ScanFacts.

(** ** The orchestrator as a function of cache and environment *)

Section Outcome.

Context (P : Platform).

(** One call of [fixQtHDPINonIntegerScaling]: it returns, with the result and
    the environment [outcome] gives, the version cache of its lazy
    initialisation, and a trace extended by one of the five shapes of the
    probing protocol. *)
Lemma fixQtHDPINonIntegerScaling_outcome st :
  exists st' evs,
    fixQtHDPINonIntegerScaling P st =
    Some (fst (outcome P (osver (initialized P st)) (osver_failure (initialized P st))
                 (environ st)), st') /\
    environ st' =
    snd (outcome P (osver (initialized P st)) (osver_failure (initialized P st))
           (environ st)) /\
    osver st' = osver (initialized P st) /\
    osver_failure st' = osver_failure (initialized P st) /\
    trace st' = trace (initialized P st) ++ evs /\
    (evs = [] \/
     evs = [EvResolve "SHCore" "GetDpiForMonitor"] \/
     evs = [EvResolve "SHCore" "GetDpiForMonitor"; EvResolve "user32" "SetProcessDPIAware"] \/
     exists f tail,
       SHCore_GetDpiForMonitor P = Some f /\
       evs = [EvResolve "SHCore" "GetDpiForMonitor"; EvResolve "user32" "SetProcessDPIAware";
              EvSetProcessDPIAware; EvEnumDisplayMonitors] ++
             snd (scan_monitors P f (monitors P) QDpi_default) ++ tail /\
       (tail = [] \/ exists v, tail = [Ev_g_setenv "QT_SCALE_FACTOR" v])).
Proof.
  rewrite fixQtHDPINonIntegerScaling_eq. cbv zeta. unfold outcome.
  rewrite <- (initialized_environ P st).
  set (s1 := initialized P st).
  destruct (negb (negb (osver_failure s1) && negb (OSVER_SYS (osver s1) <? OSVER_TO_NUM 6 2 0))).
  { exists s1, []. rewrite app_nil_r. repeat split. left. reflexivity. }
  destruct (negb (isEmpty (default "" (environ s1 !! "QT_SCALE_FACTOR")))).
  { exists s1, []. rewrite app_nil_r. repeat split. left. reflexivity. }
  destruct (negb (isEmpty (default "" (environ s1 !! "QT_AUTO_SCREEN_SCALE_FACTOR")))).
  { exists s1, []. rewrite app_nil_r. repeat split. left. reflexivity. }
  destruct (SHCore_GetDpiForMonitor P) as [f|].
  2:{ eexists _, [_]. repeat split. right. left. reflexivity. }
  destruct (user32_SetProcessDPIAware P) as [g|].
  2:{ eexists _, [_; _]. split; [reflexivity|]. simpl. rewrite <- app_assoc.
      repeat split. right. right. left. reflexivity. }
  rewrite (readDPI_scan P f) by reflexivity.
  set (sc := scan_monitors P f (monitors P) QDpi_default).
  destruct (fst (fst sc) =? 0); cbn [negb].
  { eexists _, (_ :: _ :: _ :: _ :: snd sc ++ []). split; [reflexivity|]. simpl.
    rewrite app_nil_r, <- !app_assoc. repeat split.
    right. right. right. exists f, [].
    split; [reflexivity | split; [rewrite app_nil_r; reflexivity | left; reflexivity]]. }
  destruct (fst (fst sc) <=? 96).
  { eexists _, (_ :: _ :: _ :: _ :: snd sc ++ []). split; [reflexivity|]. simpl.
    rewrite app_nil_r, <- !app_assoc. repeat split.
    right. right. right. exists f, [].
    split; [reflexivity | split; [rewrite app_nil_r; reflexivity | left; reflexivity]]. }
  eexists _, (_ :: _ :: _ :: _ :: snd sc ++ [_]). split; [reflexivity|]. simpl.
  rewrite <- !app_assoc. repeat split.
  right. right. right. exists f. eexists.
  split; [reflexivity | split; [reflexivity | right; eexists; reflexivity]].
Qed.

End Outcome.

(** * Further properties of the version oracle *)

Lemma OSVER_TO_NUM_mod major minor patch :
  OSVER_TO_NUM major minor patch = (major * 2 ^ 20 + minor * 2 ^ 10 + patch) mod 2 ^ 32.
Proof.
  unfold OSVER_TO_NUM, u32. rewrite !Z.shiftl_mul_pow2 by lia.
  rewrite Z.add_mod_idemp_l by lia.
  rewrite <- Z.add_assoc, Z.add_mod_idemp_l by lia.
  rewrite (Z.add_comm (major * 2 ^ 20)), <- Z.add_assoc, Z.add_mod_idemp_l by lia.
  f_equal. lia.
Qed.

Lemma OSVER_TO_NUM_nonneg major minor patch : 0 <= OSVER_TO_NUM major minor patch.
Proof. rewrite OSVER_TO_NUM_mod. apply Z.mod_pos_bound. lia. Qed.

(** X1.  The four convenience predicates are nested: whatever the state, each
    returns, all leave the same initialised cache, and Windows 8.1 or higher
    implies Windows 8 or higher, which implies Windows 7 or higher, which
    implies Vista or higher. *)
Theorem version_predicates_nested (P : Platform) st :
  exists vista seven eight eight1,
    isWindowsVistaOrHigher P st = Some (vista, initialized P st) /\
    isWindows7OrHigher P st = Some (seven, initialized P st) /\
    isWindows8OrHigher P st = Some (eight, initialized P st) /\
    isWindows8Point1OrHigher P st = Some (eight1, initialized P st) /\
    (eight1 = true -> eight = true) /\
    (eight = true -> seven = true) /\
    (seven = true -> vista = true).
Proof.
  unfold isWindowsVistaOrHigher, isWindows7OrHigher, isWindows8OrHigher,
    isWindows8Point1OrHigher, isAtLeastSystemVersion_static.
  rewrite !_isAtLeastSystemVersion_eq.
  eexists _, _, _, _. repeat (split; [reflexivity|]).
  change (OSVER_TO_NUM 6 0 0) with 6291456. change (OSVER_TO_NUM 6 1 0) with 6292480.
  change (OSVER_TO_NUM 6 2 0) with 6293504. change (OSVER_TO_NUM 6 3 0) with 6294528.
  destruct (osver_failure (initialized P st)); simpl; [repeat split; discriminate|].
  generalize (OSVER_SYS (osver (initialized P st))). intros sys.
  destruct (Z.ltb_spec sys 6291456); destruct (Z.ltb_spec sys 6292480);
    destruct (Z.ltb_spec sys 6293504); destruct (Z.ltb_spec sys 6294528);
    simpl; repeat split; intros; try reflexivity; try discriminate; lia.
Qed.

(** X2.  After a successful version query, [getSystemVersion] reports the
    queried major number, minor number and service-pack major number on every
    call of every history, whatever the three pointees held before. *)
Theorem getSystemVersion_reports_queried_version (P : Platform) a env cs rs st out :
  os_version P = Some a ->
  run P cs (initial_state env) = Some (rs, st) ->
  getSystemVersion P out st =
  Some ((ans_major a, ans_minor a, ans_sp_major a), initialized P st).
Proof.
  intros Hok Hrun. rewrite getSystemVersion_eq.
  destruct (run_from_start P env cs rs st Hrun) as (Ho & _ & _).
  rewrite Ho. unfold queried. rewrite Hok. reflexivity.
Qed.

Lemma getSystemVersion_reports_queried_version_witness :
  getSystemVersion hidpi_platform (0, 0, 0) (queried hidpi_platform (initial_state ∅)) =
  Some ((6, 3, 0), initialized hidpi_platform (queried hidpi_platform (initial_state ∅))).
Proof.
  apply (getSystemVersion_reports_queried_version hidpi_platform windows_8_1 ∅
           [call_isWindows7OrHigher] [res_bool true]); reflexivity.
Defined.

(** X3.  The comparison sees the requested triple only through its 32-bit
    packed number, so carries pass between the fields: a major number counts
    modulo 2^12, 2^10 in the minor number is one major number, and 2^10 in the
    patch number is one minor number. *)
Theorem isAtLeastSystemVersion_carries (P : Platform) major minor patch st :
  isAtLeastSystemVersion P (major + 2 ^ 12) minor patch st =
  isAtLeastSystemVersion P major minor patch st /\
  isAtLeastSystemVersion P major (minor + 2 ^ 10) patch st =
  isAtLeastSystemVersion P (major + 1) minor patch st /\
  isAtLeastSystemVersion P major minor (patch + 2 ^ 10) st =
  isAtLeastSystemVersion P major (minor + 1) patch st.
Proof.
  unfold isAtLeastSystemVersion. rewrite !_isAtLeastSystemVersion_eq.
  assert (H1 : OSVER_TO_NUM (major + 2 ^ 12) minor patch = OSVER_TO_NUM major minor patch).
  { rewrite !OSVER_TO_NUM_mod.
    replace ((major + 2 ^ 12) * 2 ^ 20 + minor * 2 ^ 10 + patch)
      with (major * 2 ^ 20 + minor * 2 ^ 10 + patch + 1 * 2 ^ 32) by lia.
    apply Z.mod_add. lia. }
  assert (H2 : OSVER_TO_NUM major (minor + 2 ^ 10) patch = OSVER_TO_NUM (major + 1) minor patch).
  { rewrite !OSVER_TO_NUM_mod. f_equal. lia. }
  assert (H3 : OSVER_TO_NUM major minor (patch + 2 ^ 10) = OSVER_TO_NUM major (minor + 1) patch).
  { rewrite !OSVER_TO_NUM_mod. f_equal. lia. }
  rewrite H1, H2, H3. repeat split.
Qed.

(** X4.  The request (0, 0, 0) tests the query itself: on every call of every
    history [isAtLeastSystemVersion(0, 0, 0)] is [true] when the version query
    succeeded and [false] when it failed. *)
Theorem isAtLeastSystemVersion_zero_tests_the_query (P : Platform) env cs rs st :
  run P cs (initial_state env) = Some (rs, st) ->
  isAtLeastSystemVersion P 0 0 0 st =
  Some (match os_version P with Some _ => true | None => false end, initialized P st).
Proof.
  intros Hrun. unfold isAtLeastSystemVersion. rewrite _isAtLeastSystemVersion_eq.
  destruct (run_from_start P env cs rs st Hrun) as (Ho & Hf & _).
  rewrite Hf. unfold queried at 1.
  destruct (os_version P) as [a|]; simpl; [|reflexivity].
  change (OSVER_TO_NUM 0 0 0) with 0.
  destruct (Z.ltb_spec (OSVER_SYS (osver (initialized P st))) 0) as [Hlt|]; [|reflexivity].
  pose proof (OSVER_TO_NUM_nonneg (dwMajorVersion (osver (initialized P st)))
                (dwMinorVersion (osver (initialized P st)))
                (wServicePackMajor (osver (initialized P st)))) as Hn.
  unfold OSVER_SYS in Hlt. lia.
Qed.

Lemma isAtLeastSystemVersion_zero_tests_the_query_witness :
  isAtLeastSystemVersion failing_platform 0 0 0 (initial_state ∅) =
  Some (false, initialized failing_platform (initial_state ∅)).
Proof.
  apply (isAtLeastSystemVersion_zero_tests_the_query failing_platform ∅ [] []).
  reflexivity.
Defined.

(** X17.  For version numbers below 2^10, as in practice, the answer of
    [isAtLeastSystemVersion] on every call of every history after a
    successful query is the lexicographic comparison of the queried triple
    (major, minor, service-pack major) with the requested one. *)
Theorem isAtLeastSystemVersion_is_lexicographic
    (P : Platform) a env cs rs st major minor patch :
  os_version P = Some a ->
  run P cs (initial_state env) = Some (rs, st) ->
  0 <= ans_major a < 2 ^ 10 -> 0 <= ans_minor a < 2 ^ 10 -> 0 <= ans_sp_major a < 2 ^ 10 ->
  0 <= major < 2 ^ 10 -> 0 <= minor < 2 ^ 10 -> 0 <= patch < 2 ^ 10 ->
  isAtLeastSystemVersion P major minor patch st =
  Some (tuple_ge (ans_major a, ans_minor a, ans_sp_major a) (major, minor, patch),
        initialized P st).
Proof.
  intros Hok Hrun HM Hm Hp HM' Hm' Hp'.
  unfold isAtLeastSystemVersion. rewrite _isAtLeastSystemVersion_eq.
  destruct (run_from_start P env cs rs st Hrun) as (Ho & Hf & _).
  rewrite Ho, Hf. unfold queried. rewrite Hok. unfold OSVER_SYS. simpl.
  rewrite !OSVER_TO_NUM_exact by lia.
  f_equal. f_equal. unfold tuple_ge.
  destruct (Z.ltb_spec (ans_major a * 2 ^ 20 + ans_minor a * 2 ^ 10 + ans_sp_major a)
                       (major * 2 ^ 20 + minor * 2 ^ 10 + patch));
    destruct (Z.ltb_spec major (ans_major a)); destruct (Z.eqb_spec (ans_major a) major);
    destruct (Z.ltb_spec minor (ans_minor a)); destruct (Z.eqb_spec (ans_minor a) minor);
    destruct (Z.leb_spec patch (ans_sp_major a)); simpl; try reflexivity; exfalso; lia.
Qed.

Lemma isAtLeastSystemVersion_is_lexicographic_witness :
  isAtLeastSystemVersion hidpi_platform 6 2 9 (initial_state ∅) =
  Some (tuple_ge (6, 3, 0) (6, 2, 9), initialized hidpi_platform (initial_state ∅)).
Proof.
  apply (isAtLeastSystemVersion_is_lexicographic hidpi_platform windows_8_1 ∅ [] []);
    try reflexivity; simpl; lia.
Defined.

(** * Further properties of the scaling orchestrator *)

Lemma append_nonempty_l s1 s2 : s1 <> "" -> s1 +:+ s2 <> "".
Proof. destruct s1; simpl; [contradiction | discriminate]. Qed.

Lemma append_nonempty_r s1 s2 : s2 <> "" -> s1 +:+ s2 <> "".
Proof. destruct s1; simpl; [auto | discriminate]. Qed.

Lemma chop_trailing_zeros_nonempty s : chop_trailing_zeros s <> "".
Proof.
  unfold chop_trailing_zeros.
  destruct (strip_zeros_rev (rev (list_ascii_of_string s))) as [|c l]; [discriminate|].
  simpl. destruct (rev l ++ [c]) as [|c' l'] eqn:E; [|discriminate].
  destruct (rev l); discriminate E.
Qed.

Lemma decimalForm_nonempty digits decpt : digits <> "" -> decimalForm digits decpt <> "".
Proof.
  intros H. unfold decimalForm.
  set (d1 := if decpt <? 0 then zeros (Z.to_nat (- decpt)) +:+ digits else digits).
  assert (H1 : d1 <> "").
  { unfold d1. destruct (decpt <? 0); [apply append_nonempty_r|]; exact H. }
  set (p1 := if decpt <? 0 then 0 else decpt).
  set (d2 := if Z.of_nat (String.length d1) <? p1
             then d1 +:+ zeros (Z.to_nat (p1 - Z.of_nat (String.length d1))) else d1).
  assert (H2 : d2 <> "").
  { unfold d2. destruct (_ <? p1); [apply append_nonempty_l|]; exact H1. }
  destruct (p1 <? Z.of_nat (String.length d2)); destruct (p1 =? 0).
  - apply append_nonempty_l. discriminate.
  - apply append_nonempty_r, append_nonempty_l. discriminate.
  - apply append_nonempty_l. discriminate.
  - exact H2.
Qed.

Lemma exponentForm_nonempty digits decpt : exponentForm digits decpt <> "".
Proof.
  unfold exponentForm. apply append_nonempty_r, append_nonempty_l. discriminate.
Qed.

(** [QString::number] never writes the empty string. *)
Lemma QString_number_nonempty (P : Platform) d : QString_number P d <> "".
Proof.
  unfold QString_number.
  destruct (Prim2SF d) as [s|s| |s m e]; try discriminate.
  - destruct s; discriminate.
  - match goal with
    | |- context [doubleToAscii P ?num ?den] =>
        assert (Hd : fst (doubleToAscii P num den) <> "");
        [|destruct (doubleToAscii P num den) as [digits decpt]]
    end.
    { unfold doubleToAscii. cbv zeta.
      match goal with
      | |- context [if ?b then (10 ^ 5, ?x) else ?y] => destruct b
      end; cbn [fst]; apply chop_trailing_zeros_nonempty. }
    cbn [fst] in Hd.
    match goal with
    | |- context [if ?b then exponentForm digits decpt else decimalForm digits decpt] =>
        assert (Hb : (if b then exponentForm digits decpt else decimalForm digits decpt) <> "")
          by (destruct b; [apply exponentForm_nonempty | apply decimalForm_nonempty, Hd])
    end.
    destruct s; [apply append_nonempty_r|]; exact Hb.
Qed.

Section OutcomeFacts.

Context (P : Platform).

(** Either the environment is left as it is, or the result is [true] and a
    non-empty value was stored in [QT_SCALE_FACTOR] while neither variable
    held a value. *)
Lemma outcome_environment cache failure env :
  snd (outcome P cache failure env) = env \/
  (fst (outcome P cache failure env) = true /\
   negb (isEmpty (default "" (env !! "QT_SCALE_FACTOR"))) = false /\
   negb (isEmpty (default "" (env !! "QT_AUTO_SCREEN_SCALE_FACTOR"))) = false /\
   exists v, v <> "" /\
     snd (outcome P cache failure env) = <["QT_SCALE_FACTOR" := v]> env).
Proof.
  unfold outcome.
  destruct (negb (negb failure && negb (OSVER_SYS cache <? OSVER_TO_NUM 6 2 0)));
    [left; reflexivity|].
  destruct (negb (isEmpty (default "" (env !! "QT_SCALE_FACTOR")))); [left; reflexivity|].
  destruct (negb (isEmpty (default "" (env !! "QT_AUTO_SCREEN_SCALE_FACTOR"))));
    [left; reflexivity|].
  destruct (SHCore_GetDpiForMonitor P) as [f|]; [|left; reflexivity].
  destruct (user32_SetProcessDPIAware P) as [g|]; [|left; reflexivity].
  cbv zeta.
  destruct (fst (fst (scan_monitors P f (monitors P) QDpi_default)) =? 0);
    [left; reflexivity|].
  destruct (fst (fst (scan_monitors P f (monitors P) QDpi_default)) <=? 96);
    [left; reflexivity|].
  right. repeat split. eexists. split; [apply (QString_number_nonempty P) | reflexivity].
Qed.

Lemma nonempty_value_is_override v (env : gmap string string) name :
  v <> "" -> negb (isEmpty (default "" (<[name := v]> env !! name))) = true.
Proof.
  intros Hv. rewrite lookup_insert_eq. simpl. unfold isEmpty.
  destruct (String.eqb_spec v ""); [contradiction | reflexivity].
Qed.

(** A [true] result means that one of the two variables holds a non-empty
    value in the environment that is left. *)
Lemma outcome_true cache failure env :
  fst (outcome P cache failure env) = true ->
  negb (isEmpty (default "" (snd (outcome P cache failure env) !! "QT_SCALE_FACTOR")))
    = true \/
  negb (isEmpty (default ""
          (snd (outcome P cache failure env) !! "QT_AUTO_SCREEN_SCALE_FACTOR"))) = true.
Proof.
  unfold outcome.
  destruct (negb (negb failure && negb (OSVER_SYS cache <? OSVER_TO_NUM 6 2 0)));
    [discriminate|].
  destruct (negb (isEmpty (default "" (env !! "QT_SCALE_FACTOR")))) eqn:E1;
    [left; exact E1|].
  destruct (negb (isEmpty (default "" (env !! "QT_AUTO_SCREEN_SCALE_FACTOR")))) eqn:E2;
    [right; exact E2|].
  destruct (SHCore_GetDpiForMonitor P) as [f|]; [|discriminate].
  destruct (user32_SetProcessDPIAware P) as [g|]; [|discriminate].
  cbv zeta.
  destruct (fst (fst (scan_monitors P f (monitors P) QDpi_default)) =? 0); [discriminate|].
  destruct (fst (fst (scan_monitors P f (monitors P) QDpi_default)) <=? 96);
    [discriminate|].
  intros _. left. apply nonempty_value_is_override, QString_number_nonempty.
Qed.

(** A second evaluation in the environment the first one left changes
    nothing and gives the same result. *)
Lemma outcome_idempotent cache failure env :
  outcome P cache failure (snd (outcome P cache failure env)) =
  outcome P cache failure env.
Proof.
  destruct (outcome_environment cache failure env)
    as [Hsame | (Ht & _ & _ & v & Hv & Hins)].
  - rewrite Hsame. reflexivity.
  - rewrite (surjective_pairing (outcome P cache failure env)) at 2.
    rewrite Ht, Hins. unfold outcome at 1.
    assert (Hgate : negb (negb failure && negb (OSVER_SYS cache <? OSVER_TO_NUM 6 2 0))
                    = false).
    { revert Ht. unfold outcome.
      destruct (negb (negb failure && negb (OSVER_SYS cache <? OSVER_TO_NUM 6 2 0)));
        [discriminate | reflexivity]. }
    rewrite Hgate, (nonempty_value_is_override v env _ Hv). reflexivity.
Qed.

(** On the environment, [user_override] and the test the code makes agree. *)
Lemma user_override_test name st :
  user_override name st <-> negb (isEmpty (default "" (environ st !! name))) = true.
Proof.
  split; [apply user_override_nonempty|].
  intros H. destruct (environ st !! name) as [v|] eqn:Hv; simpl in H; [|discriminate H].
  exists v. split; [exact Hv|]. intros ->. discriminate H.
Qed.

End OutcomeFacts.

Section FirstUsable.

Context (P : Platform).

Lemma scan_monitor_per_monitor f h d name x y :
  GetMonitorInfo P h = Some name -> name <> "WinDisc" ->
  f h 0 = Some (x, y) -> x <> 0 ->
  scan_monitor P f h d = (true, (x, y), [EvGetMonitorInfo h; EvGetDpiForMonitor h]).
Proof.
  intros Hinfo Hname Hq Hx. unfold scan_monitor. rewrite Hinfo, Hq.
  destruct (String.eqb_spec name "WinDisc"); [contradiction|]. cbn [fst].
  destruct (Z.eqb_spec x 0); [contradiction | reflexivity].
Qed.

Lemma scan_monitor_device_context f h d name :
  GetMonitorInfo P h = Some name -> name <> "WinDisc" ->
  match f h 0 with Some (dpiX, _) => dpiX = 0 | None => True end ->
  CreateDC P name <> 0 ->
  scan_monitor P f h d =
  (true, (GetDeviceCaps P (CreateDC P name) LOGPIXELSX,
          GetDeviceCaps P (CreateDC P name) LOGPIXELSY),
   [EvGetMonitorInfo h; EvGetDpiForMonitor h; EvCreateDC name;
    EvGetDeviceCaps (CreateDC P name) LOGPIXELSX;
    EvGetDeviceCaps (CreateDC P name) LOGPIXELSY; EvDeleteDC (CreateDC P name)]).
Proof.
  intros Hinfo Hname Hq Hdc. unfold scan_monitor. rewrite Hinfo.
  destruct (String.eqb_spec name "WinDisc"); [contradiction|].
  destruct (Z.eqb_spec (CreateDC P name) 0); [contradiction|].
  destruct (f h 0) as [[x y]|]; [subst x|]; reflexivity.
Qed.

(** The enumeration over rejected monitors followed by an accepted one. *)
Lemma scan_monitors_first_accepted f pre h post d d' evs' :
  Forall (fun h' => usable P f h' = false) pre ->
  scan_monitor P f h d = (true, d', evs') ->
  exists evs,
    scan_monitors P f (pre ++ h :: post) d = (d', evs ++ evs') /\ consulted evs = pre.
Proof.
  intros Hpre Hh.
  destruct (scan_monitors_rejected P f pre (h :: post) d Hpre) as (evs & Hs & Hc).
  exists evs. rewrite Hs. simpl. rewrite Hh. simpl. split; [reflexivity | exact Hc].
Qed.

End FirstUsable.

(** X5.  Below Windows 8 (packed number under that of 6.2.0) or after a failed
    version query, every call of [fixQtHDPINonIntegerScaling] in every history
    returns [false] having done nothing but the lazy initialisation: the
    environment is as it was, and no symbol resolution, DPI-awareness call,
    enumeration, environment write or display call was made. *)
Theorem fixQtHDPINonIntegerScaling_below_windows_8 (P : Platform) env cs rs st :
  match os_version P with
  | Some a => OSVER_TO_NUM (ans_major a) (ans_minor a) (ans_sp_major a) < OSVER_TO_NUM 6 2 0
  | None => True
  end ->
  run P cs (initial_state env) = Some (rs, st) ->
  fixQtHDPINonIntegerScaling P st = Some (false, initialized P st) /\
  environ (initialized P st) = environ st /\
  select is_probe_step (trace (initialized P st)) = select is_probe_step (trace st) /\
  select is_display_event (trace (initialized P st)) = select is_display_event (trace st).
Proof.
  intros Hold Hrun.
  split; [|split; [apply initialized_environ | split; apply initialized_select; reflexivity]].
  rewrite fixQtHDPINonIntegerScaling_eq. cbv zeta.
  destruct (run_from_start P env cs rs st Hrun) as (Ho & Hf & _).
  rewrite Ho, Hf. unfold queried.
  destruct (os_version P) as [a|]; simpl; [|reflexivity].
  unfold OSVER_SYS. simpl.
  destruct (Z.ltb_spec (OSVER_TO_NUM (ans_major a) (ans_minor a) (ans_sp_major a))
              (OSVER_TO_NUM 6 2 0)); [reflexivity | lia].
Qed.

Lemma fixQtHDPINonIntegerScaling_below_windows_8_witness :
  fixQtHDPINonIntegerScaling windows_7_platform (initial_state ∅) =
  Some (false, initialized windows_7_platform (initial_state ∅)) /\
  environ (initialized windows_7_platform (initial_state ∅)) = environ (initial_state ∅) /\
  select is_probe_step (trace (initialized windows_7_platform (initial_state ∅))) =
  select is_probe_step (trace (initial_state ∅)) /\
  select is_display_event (trace (initialized windows_7_platform (initial_state ∅))) =
  select is_display_event (trace (initial_state ∅)).
Proof.
  apply (fixQtHDPINonIntegerScaling_below_windows_8 windows_7_platform ∅ [] []);
    reflexivity.
Defined.

(** X6.  Whatever the state, [fixQtHDPINonIntegerScaling] returns and changes
    no environment variable other than [QT_SCALE_FACTOR]; a [false] result
    means the whole environment is as it was; and a non-empty
    [QT_SCALE_FACTOR] or [QT_AUTO_SCREEN_SCALE_FACTOR] is never overwritten,
    whatever the OS version. *)
Theorem fixQtHDPINonIntegerScaling_environment_frame (P : Platform) st :
  exists b st',
    fixQtHDPINonIntegerScaling P st = Some (b, st') /\
    (forall name, name <> "QT_SCALE_FACTOR" -> environ st' !! name = environ st !! name) /\
    (b = false -> environ st' = environ st) /\
    (user_override "QT_SCALE_FACTOR" st \/ user_override "QT_AUTO_SCREEN_SCALE_FACTOR" st ->
     environ st' = environ st).
Proof.
  destruct (fixQtHDPINonIntegerScaling_outcome P st) as (st' & evs & Hfix & Henv & _).
  eexists _, st'. split; [exact Hfix|]. rewrite Henv.
  destruct (outcome_environment P (osver (initialized P st))
              (osver_failure (initialized P st)) (environ st))
    as [Hsame | (Ht & H1 & H2 & v & _ & Hins)].
  - rewrite Hsame. repeat split.
  - rewrite Hins, Ht. split; [|split].
    + intros name Hne. apply lookup_insert_ne. congruence.
    + discriminate.
    + intros [Hov | Hov]; apply user_override_test in Hov; congruence.
Qed.

(** X7.  When [fixQtHDPINonIntegerScaling] returns [true], one of
    [QT_SCALE_FACTOR] and [QT_AUTO_SCREEN_SCALE_FACTOR] holds a non-empty
    value in the environment it leaves. *)
Theorem fixQtHDPINonIntegerScaling_true_means_factor_in_effect (P : Platform) st st' :
  fixQtHDPINonIntegerScaling P st = Some (true, st') ->
  user_override "QT_SCALE_FACTOR" st' \/ user_override "QT_AUTO_SCREEN_SCALE_FACTOR" st'.
Proof.
  intros Hfix.
  destruct (fixQtHDPINonIntegerScaling_outcome P st) as (st'' & evs & Hfix' & Henv & _).
  rewrite Hfix in Hfix'. injection Hfix' as Hb <-.
  symmetry in Hb. apply outcome_true in Hb. rewrite <- Henv in Hb.
  destruct Hb as [Hb | Hb]; [left | right]; apply user_override_test, Hb.
Qed.

Lemma fixQtHDPINonIntegerScaling_true_means_factor_in_effect_witness :
  user_override "QT_SCALE_FACTOR" hidpi_published_state \/
  user_override "QT_AUTO_SCREEN_SCALE_FACTOR" hidpi_published_state.
Proof.
  apply (fixQtHDPINonIntegerScaling_true_means_factor_in_effect hidpi_platform
           (initial_state ∅)).
  reflexivity.
Defined.

(** X8.  No history of calls to the exported functions, from any state of the
    globals, ends in a call through a null function pointer: every call
    returns a result. *)
Theorem exported_calls_always_return (P : Platform) cs : forall st,
  exists rs st', run P cs st = Some (rs, st') /\ List.length rs = List.length cs.
Proof.
  induction cs as [|c cs IH]; intros st; simpl.
  - exists [], st. split; reflexivity.
  - destruct (exec_spec P c st) as (r & st1 & He & _).
    destruct (IH st1) as (rs & st2 & Hr & Hl).
    unfold bind. rewrite He, Hr. exists (r :: rs), st2.
    split; [reflexivity | simpl; congruence].
Qed.

(** X14.  One call of [fixQtHDPINonIntegerScaling] follows a fixed protocol:
    among the events it adds to the trace, the symbol resolutions, the
    DPI-awareness call, the enumeration and the environment write occur as a
    prefix of "resolve GetDpiForMonitor, resolve SetProcessDPIAware, call
    SetProcessDPIAware, enumerate, write QT_SCALE_FACTOR", never stopping
    between the DPI-awareness call and the enumeration. *)
Theorem fixQtHDPINonIntegerScaling_protocol (P : Platform) st :
  exists b st' evs,
    fixQtHDPINonIntegerScaling P st = Some (b, st') /\
    trace st' = trace st ++ evs /\
    (select is_probe_step evs = [] \/
     select is_probe_step evs = [EvResolve "SHCore" "GetDpiForMonitor"] \/
     select is_probe_step evs =
       [EvResolve "SHCore" "GetDpiForMonitor"; EvResolve "user32" "SetProcessDPIAware"] \/
     select is_probe_step evs =
       [EvResolve "SHCore" "GetDpiForMonitor"; EvResolve "user32" "SetProcessDPIAware";
        EvSetProcessDPIAware; EvEnumDisplayMonitors] \/
     exists v,
       select is_probe_step evs =
       [EvResolve "SHCore" "GetDpiForMonitor"; EvResolve "user32" "SetProcessDPIAware";
        EvSetProcessDPIAware; EvEnumDisplayMonitors; Ev_g_setenv "QT_SCALE_FACTOR" v]).
Proof.
  destruct (fixQtHDPINonIntegerScaling_outcome P st)
    as (st' & evs & Hfix & _ & _ & _ & Htr & Hshape).
  assert (Hq : exists q, trace (initialized P st) = trace st ++ q /\
                         select is_probe_step q = []).
  { unfold initialized, queried.
    destruct (isInitializedSystemVersion st).
    - exists []. rewrite app_nil_r. split; reflexivity.
    - exists [EvGetVersionEx]. destruct (os_version P); split; reflexivity. }
  destruct Hq as (q & Hq & Hsel).
  eexists _, st', (q ++ evs). split; [exact Hfix|].
  split; [rewrite Htr, Hq, app_assoc; reflexivity|].
  rewrite select_app, Hsel. simpl.
  destruct Hshape as [-> | [-> | [-> | (f & tail & _ & -> & Htail)]]].
  - left. reflexivity.
  - right. left. reflexivity.
  - right. right. left. reflexivity.
  - destruct (scan_monitors_events P f (monitors P) QDpi_default) as (_ & _ & Hs & _).
    simpl. rewrite select_app, Hs. simpl.
    destruct Htail as [-> | (v & ->)].
    + right. right. right. left. reflexivity.
    + right. right. right. right. exists v. reflexivity.
Qed.

(** X16.  Calling [fixQtHDPINonIntegerScaling] a second time gives the same
    result as the first call and leaves the environment the first call left;
    the second call makes no version query. *)
Theorem fixQtHDPINonIntegerScaling_twice (P : Platform) st :
  exists b st1 st2,
    fixQtHDPINonIntegerScaling P st = Some (b, st1) /\
    fixQtHDPINonIntegerScaling P st1 = Some (b, st2) /\
    environ st2 = environ st1 /\
    select is_version_query (trace st2) = select is_version_query (trace st1).
Proof.
  destruct (fixQtHDPINonIntegerScaling_outcome P st)
    as (st1 & evs1 & Hfix1 & Henv1 & Ho1 & Hf1 & _).
  assert (Hi : initialized P st1 = st1).
  { apply initialized_idem. unfold isInitializedSystemVersion. rewrite Ho1.
    apply (initialized_isInitialized P st). }
  destruct (fixQtHDPINonIntegerScaling_outcome P st1)
    as (st2 & evs2 & Hfix2 & Henv2 & _ & _ & Htr2 & Hshape).
  rewrite Hi in Hfix2, Henv2, Htr2.
  rewrite Ho1, Hf1, Henv1, outcome_idempotent in Hfix2, Henv2.
  eexists _, st1, st2. split; [exact Hfix1|]. split; [exact Hfix2|].
  split; [congruence|].
  rewrite Htr2, select_app.
  assert (Hnone : select is_version_query evs2 = []).
  { destruct Hshape as [-> | [-> | [-> | (f & tail & _ & -> & Htail)]]];
      try reflexivity.
    destruct (scan_monitors_events P f (monitors P) QDpi_default) as (_ & _ & _ & Hs).
    simpl. rewrite select_app, Hs. destruct Htail as [-> | (v & ->)]; reflexivity. }
  rewrite Hnone. apply app_nil_r.
Qed.

(** X15.  From process start, on Windows 8 or higher (by packed number), with
    neither variable set to a non-empty value and both symbols resolved:
    when the first monitor that is not rejected is readable, is not the
    pseudo-display and gets a non-zero horizontal DPI [x] from the
    per-monitor query, [fixQtHDPINonIntegerScaling] returns whether [x]
    exceeds 96 and leaves the environment with [QT_SCALE_FACTOR] set to the
    rendering of [x / 96.0] in that case, and unchanged otherwise. *)
Theorem scale_factor_from_process_start
    (P : Platform) a env f g pre h post name x y :
  os_version P = Some a ->
  OSVER_TO_NUM 6 2 0 <= OSVER_TO_NUM (ans_major a) (ans_minor a) (ans_sp_major a) ->
  ~ user_override "QT_SCALE_FACTOR" (initial_state env) ->
  ~ user_override "QT_AUTO_SCREEN_SCALE_FACTOR" (initial_state env) ->
  SHCore_GetDpiForMonitor P = Some f ->
  user32_SetProcessDPIAware P = Some g ->
  monitors P = pre ++ h :: post ->
  Forall (fun h' => usable P f h' = false) pre ->
  GetMonitorInfo P h = Some name -> name <> "WinDisc" ->
  f h 0 = Some (x, y) -> x <> 0 ->
  exists st',
    fixQtHDPINonIntegerScaling P (initial_state env) = Some (96 <? x, st') /\
    environ st' =
    if 96 <? x
    then <["QT_SCALE_FACTOR" :=
             QString_number P (PrimFloat.div (double_of_Z x) 96%float)]> env
    else env.
Proof.
  intros Hok Hver Hno1 Hno2 Hf Hg Hmon Hpre Hinfo Hname Hq Hx.
  destruct (fixQtHDPINonIntegerScaling_outcome P (initial_state env))
    as (st' & evs & Hfix & Henv & _).
  exists st'.
  assert (Hout : outcome P (osver (initialized P (initial_state env)))
                   (osver_failure (initialized P (initial_state env)))
                   (environ (initial_state env)) =
                 (96 <? x,
                  if 96 <? x
                  then <["QT_SCALE_FACTOR" :=
                           QString_number P (PrimFloat.div (double_of_Z x) 96%float)]> env
                  else env)).
  { change (initialized P (initial_state env)) with (queried P (initial_state env)).
    unfold outcome.
    rewrite (no_user_override_empty _ _ Hno1), (no_user_override_empty _ _ Hno2).
    rewrite Hf, Hg, Hmon.
    unfold queried. rewrite Hok. cbn [osver osver_failure initial_state].
    unfold OSVER_SYS. cbn [dwMajorVersion dwMinorVersion wServicePackMajor].
    destruct (Z.ltb_spec (OSVER_TO_NUM (ans_major a) (ans_minor a) (ans_sp_major a))
                (OSVER_TO_NUM 6 2 0)); [lia|]. cbn [negb andb].
    destruct (scan_monitors_first_accepted P f pre h post QDpi_default (x, y) _ Hpre
                (scan_monitor_per_monitor P f h QDpi_default name x y Hinfo Hname Hq Hx))
      as (evs' & -> & _).
    cbv zeta. cbn [fst].
    destruct (Z.eqb_spec x 0); [contradiction|].
    destruct (Z.leb_spec x 96); destruct (Z.ltb_spec 96 x); try lia; reflexivity. }
  rewrite Hout in Hfix, Henv. split; assumption.
Qed.

Lemma scale_factor_from_process_start_witness :
  exists st',
    fixQtHDPINonIntegerScaling hidpi_platform (initial_state ∅) = Some (true, st') /\
    environ st' = <["QT_SCALE_FACTOR" := "1.5"]> ∅.
Proof.
  apply (scale_factor_from_process_start hidpi_platform windows_8_1 ∅
           hidpi_query always_aware [1] 2 [] "DISPLAY1" 144 144);
    try reflexivity; try discriminate.
  - intros (v & Hv & _). discriminate Hv.
  - intros (v & Hv & _). discriminate Hv.
  - repeat constructor.
Defined.

(** * Further properties of the display probe *)

(** X9.  [monitorData] and [monitorEnumCallback] call through the global
    [getDpiForMonitor] without a null check: while that pointer is null, a
    readable monitor that is not the pseudo-display makes them crash. *)
Theorem monitorEnumCallback_needs_resolved_query (P : Platform) h name d st :
  getDpiForMonitor st = None ->
  GetMonitorInfo P h = Some name ->
  name <> "WinDisc" ->
  monitorData P h d st = None /\ monitorEnumCallback P h d st = None.
Proof.
  intros Hnull Hinfo Hname.
  assert (Hm : monitorData P h d st = None).
  { unfold monitorData, bind, emit, modify. rewrite Hinfo.
    destruct (String.eqb_spec name "WinDisc"); [contradiction|].
    unfold monitorDPI, bind, get_state. simpl. rewrite Hnull. reflexivity. }
  split; [exact Hm|]. unfold monitorEnumCallback, bind. rewrite Hm. reflexivity.
Qed.

Lemma monitorEnumCallback_needs_resolved_query_witness :
  monitorData hidpi_platform 2 QDpi_default (initial_state ∅) = None /\
  monitorEnumCallback hidpi_platform 2 QDpi_default (initial_state ∅) = None.
Proof.
  apply (monitorEnumCallback_needs_resolved_query hidpi_platform 2 "DISPLAY1");
    [reflexivity | reflexivity | discriminate].
Defined.

(** X10.  When [monitorData] rejects every enumerated monitor (an empty
    enumeration included), [readDPI] asks each monitor for its information
    once, in order, leaves the caller's value as it was and returns whether
    that value's horizontal component is non-zero, which is [false] for the
    default-constructed value the orchestrator passes. *)
Theorem readDPI_without_usable_monitor (P : Platform) f d st :
  getDpiForMonitor st = Some f ->
  Forall (fun h => usable P f h = false) (monitors P) ->
  exists evs,
    readDPI P d st =
    Some ((negb (fst d =? 0), d), add_events (EvEnumDisplayMonitors :: evs) st) /\
    consulted evs = monitors P.
Proof.
  intros Hf Hall. rewrite (readDPI_scan P f) by exact Hf.
  destruct (scan_monitors_rejected P f (monitors P) [] d Hall) as (evs & Hs & Hc).
  rewrite app_nil_r in Hs. simpl in Hs. rewrite app_nil_r in Hs.
  exists evs. rewrite Hs. split; [reflexivity | exact Hc].
Qed.

Lemma readDPI_without_usable_monitor_witness :
  exists evs,
    readDPI lid_closed_platform QDpi_default
      (set_getDpiForMonitor (Some hidpi_query) (initial_state ∅)) =
    Some ((false, QDpi_default),
          add_events (EvEnumDisplayMonitors :: evs)
            (set_getDpiForMonitor (Some hidpi_query) (initial_state ∅))) /\
    consulted evs = [1].
Proof.
  apply (readDPI_without_usable_monitor lid_closed_platform hidpi_query QDpi_default
           (set_getDpiForMonitor (Some hidpi_query) (initial_state ∅)) eq_refl).
  repeat constructor.
Defined.

(** X11.  When the first monitor that is not rejected gets a non-zero
    horizontal DPI from the per-monitor query, [readDPI] returns [true] with
    the pair that query gave: after the rejected monitors the trace holds the
    information request and the query for that monitor and nothing else, so no
    device context is opened for it and no later monitor is consulted. *)
Theorem readDPI_per_monitor_value (P : Platform) f d st pre h post name x y :
  getDpiForMonitor st = Some f ->
  monitors P = pre ++ h :: post ->
  Forall (fun h' => usable P f h' = false) pre ->
  GetMonitorInfo P h = Some name -> name <> "WinDisc" ->
  f h 0 = Some (x, y) -> x <> 0 ->
  exists evs,
    readDPI P d st =
    Some ((true, (x, y)),
          add_events (EvEnumDisplayMonitors ::
                      evs ++ [EvGetMonitorInfo h; EvGetDpiForMonitor h]) st) /\
    consulted evs = pre.
Proof.
  intros Hf Hmon Hpre Hinfo Hname Hq Hx. rewrite (readDPI_scan P f) by exact Hf.
  rewrite Hmon.
  destruct (scan_monitors_first_accepted P f pre h post d (x, y) _ Hpre
              (scan_monitor_per_monitor P f h d name x y Hinfo Hname Hq Hx))
    as (evs & -> & Hc).
  exists evs. cbn [fst snd]. destruct (Z.eqb_spec x 0); [contradiction|].
  split; [reflexivity | exact Hc].
Qed.

Lemma readDPI_per_monitor_value_witness :
  exists evs,
    readDPI hidpi_platform QDpi_default
      (set_getDpiForMonitor (Some hidpi_query) (initial_state ∅)) =
    Some ((true, (144, 144)),
          add_events (EvEnumDisplayMonitors ::
                      evs ++ [EvGetMonitorInfo 2; EvGetDpiForMonitor 2])
            (set_getDpiForMonitor (Some hidpi_query) (initial_state ∅))) /\
    consulted evs = [1].
Proof.
  apply (readDPI_per_monitor_value hidpi_platform hidpi_query QDpi_default
           (set_getDpiForMonitor (Some hidpi_query) (initial_state ∅))
           [1] 2 [] "DISPLAY1" 144 144);
    try reflexivity; try discriminate.
  repeat constructor.
Defined.

(** X12.  When the first monitor that is not rejected has no non-zero
    per-monitor value but its device context opens, [readDPI] returns the two
    logical DPI values of that context and [true] exactly when the horizontal
    one is non-zero; the context is opened once, read on both axes and
    released before the enumeration ends. *)
Theorem readDPI_device_context_value (P : Platform) f d st pre h post name :
  getDpiForMonitor st = Some f ->
  monitors P = pre ++ h :: post ->
  Forall (fun h' => usable P f h' = false) pre ->
  GetMonitorInfo P h = Some name -> name <> "WinDisc" ->
  match f h 0 with Some (dpiX, _) => dpiX = 0 | None => True end ->
  CreateDC P name <> 0 ->
  exists evs,
    readDPI P d st =
    Some ((negb (GetDeviceCaps P (CreateDC P name) LOGPIXELSX =? 0),
           (GetDeviceCaps P (CreateDC P name) LOGPIXELSX,
            GetDeviceCaps P (CreateDC P name) LOGPIXELSY)),
          add_events (EvEnumDisplayMonitors ::
                      evs ++ [EvGetMonitorInfo h; EvGetDpiForMonitor h; EvCreateDC name;
                              EvGetDeviceCaps (CreateDC P name) LOGPIXELSX;
                              EvGetDeviceCaps (CreateDC P name) LOGPIXELSY;
                              EvDeleteDC (CreateDC P name)]) st) /\
    consulted evs = pre.
Proof.
  intros Hf Hmon Hpre Hinfo Hname Hq Hdc. rewrite (readDPI_scan P f) by exact Hf.
  rewrite Hmon.
  destruct (scan_monitors_first_accepted P f pre h post d _ _ Hpre
              (scan_monitor_device_context P f h d name Hinfo Hname Hq Hdc))
    as (evs & -> & Hc).
  exists evs. split; [reflexivity | exact Hc].
Qed.

Lemma readDPI_device_context_value_witness :
  exists evs,
    readDPI legacy_driver_platform QDpi_default
      (set_getDpiForMonitor (Some legacy_query) (initial_state ∅)) =
    Some ((true, (120, 120)),
          add_events (EvEnumDisplayMonitors ::
                      evs ++ [EvGetMonitorInfo 4; EvGetDpiForMonitor 4;
                              EvCreateDC "DISPLAY1";
                              EvGetDeviceCaps 9 LOGPIXELSX; EvGetDeviceCaps 9 LOGPIXELSY;
                              EvDeleteDC 9])
            (set_getDpiForMonitor (Some legacy_query) (initial_state ∅))) /\
    consulted evs = [].
Proof.
  apply (readDPI_device_context_value legacy_driver_platform legacy_query QDpi_default
           (set_getDpiForMonitor (Some legacy_query) (initial_state ∅))
           [] 4 [] "DISPLAY1");
    try reflexivity; try discriminate; try constructor.
Defined.


